(** * go-slogx-slack: the Slack message formatter and the Slack handler

    A shallow embedding of [formatter.go] and [handler.go].

    - Go values that are returned as a pair [(result, error)] are kept as
      pairs, with [None] for [nil].
    - Slices are modelled with their header (pointer, length, capacity) over
      a store of backing arrays, because the handler copies slice headers
      from parent to child and then calls [append] on them.
    - What the program imports (log/slog, slogx, regexp, slack, async, fmt)
      is gathered in the class [Imports]; every definition and theorem is
      generic in it. *)

From stdpp Require Import base option list strings gmap pretty sorting.

Open Scope Z_scope.
Open Scope string_scope.
Open Scope list_scope.

(** ** Data of log/slog and of the slack package *)

(** Go's [error]: the message it carries; [nil] is [None]. *)
Definition error : Type := string.

(** slogx.Level / slog.Level: an integer severity. *)
Definition Level : Type := Z.

(** A Go value stored in an [any]: the program only looks at its [%+v]
    form and at whether it implements encoding.TextMarshaler (and then at
    what MarshalText returns). *)
Record Any : Type := MkAny {
  any_text : string;
  any_MarshalText : option (string * option error)
}.

(** slog.Value is a tagged union; slog.Attr a key with a value. *)
Inductive Value : Type :=
| BoolValue (b : bool)
| StringValue (s : string)
| DurationValue (d : Z)
| TimeValue (t : Z)
| Float64Value (bits : Z)
| Int64Value (i : Z)
| Uint64Value (u : Z)
| GroupValue (g : list Attr)
| AnyValue (a : Any)
| LogValuerValue (a : Any)
with Attr : Type :=
| MkAttr (k : string) (v : Value).

Definition Key (a : Attr) : string := let 'MkAttr k _ := a in k.
Definition Val (a : Attr) : Value := let 'MkAttr _ v := a in v.


(** slog.Group(name, attrs...) *)
Definition Group (name : string) (attrs : list Attr) : Attr :=
  MkAttr name (GroupValue attrs).

(** slog.Record, as far as the handler reads it. *)
Record Record_ : Type := MkRecord {
  r_Time : Z;
  r_Level : Level;
  r_PC : Z;
  r_Message : string;
  r_Attrs : list Attr
}.

(** slack.MixedElement: the two element types the formatter builds. *)
Inductive MixedElement : Type :=
| ImageBlockElement (ImageURL AltText : string)
| TextBlockObject (Text : string).

(** slack.Block: the three block types the formatter builds. *)
Inductive Block : Type :=
| DividerBlock
| ContextBlock (BlockID : string) (Elements : list MixedElement)
| SectionBlock (Text : string).

Definition NewContextBlock (blockID : string) (elements : list MixedElement) : Block :=
  ContextBlock blockID elements.

(** slack.WebhookMessage: only [Blocks.BlockSet] is ever set. *)
Record WebhookMessage : Type := MkWebhookMessage {
  BlockSet : list Block
}.

(** ** What the program imports *)

Class Imports : Type := {
  (** context.Context and context.WithValue (the key is the name of the
      key type) *)
  GoContext : Type;
  WithValue : ∀ V : Type, string → V → GoContext → GoContext;
  (** regexp.Regexp, regexp.Compile, Regexp.MatchString *)
  Regexp : Type;
  regexp_Compile : string → Regexp + error;
  MatchString : Regexp → string → bool;
  (** slogx.SortAttrs, slogx.FlattenAttrs, slogx.ConsolidateAttrs *)
  slogx_SortAttrs : list Attr → list Attr;
  slogx_FlattenAttrs : list Attr → list Attr;
  slogx_ConsolidateAttrs : list Attr → string → Record_ → list Attr;
  (** formatter.FormatLevelValueDefault and its siblings *)
  formatter_FormatLevelValueDefault : GoContext → Level → string * option error;
  formatter_FormatTimeValueDefault : GoContext → Level → Z → string * option error;
  formatter_FormatSourceValueDefault : GoContext → Level → Z → string * option error;
  (** slog.Value.Resolve *)
  Resolve : Value → Value;
  (** the slogx level constants *)
  LevelTrace : Level; LevelDebug : Level; LevelInfo : Level; LevelNotice : Level;
  LevelWarn : Level; LevelError : Level; LevelFatal : Level; LevelPanic : Level;
  (** text forms: time.Duration.String, Time.UTC().Format(time.RFC3339),
      Time.Local().Format("03:04:05PM MST"), fmt's %f, %+v of a group and
      %s of a level *)
  Duration_String : Z → string;
  Time_UTC_RFC3339 : Z → string;
  Time_Local_Clock : Z → string;
  Sprintf_f : Z → string;
  Sprintf_group : list Attr → string;
  Sprintf_level : Level → string;
  (** slack.PostWebhookCustomHTTP(url, client, msg): the error of one
      request *)
  HTTPClient : Type;
  http_DefaultClient : HTTPClient;
  slack_PostWebhookCustomHTTP :
    string → option HTTPClient → option WebhookMessage → option error
}.

(** ** formatter.go *)

Module Formatter.
Section WithImports.
Context `{Imports}.

Definition tab : string := String (Ascii.ascii_of_nat 9) EmptyString.

Definition SlackMessageFormatterSourcePrefix : string :=
  "Source:" +:+ tab +:+ tab +:+ tab.
Definition SlackMessageFormatterTimePrefix : string :=
  "Occurred at:" +:+ tab.

(** The function types of the slogx formatter package: each returns its
    results together with an error. *)
Definition FormatLevelValueFn : Type := GoContext → Level → string * option error.
Definition FormatTimeValueFn : Type := GoContext → Level → Z → string * option error.
Definition FormatSourceValueFn : Type := GoContext → Level → Z → string * option error.
Definition FormatMessageValueFn : Type := GoContext → Level → string → string * option error.
Definition FormatAttrFn : Type :=
  GoContext → Level → string → string → Value → string * Value * option error.

(** SlackMessageFormatterOptions; a nil function is [None], and the map
    may hold nil functions. *)
Record SlackMessageFormatterOptions : Type := MkOptions {
  ApplicationIconURL : string;
  ApplicationName : string;
  AttrFormatter : option FormatAttrFn;
  IgnoreAttrs : list string;
  IncludeAttrs : bool;
  IncludeSource : bool;
  LevelFormatter : option FormatLevelValueFn;
  MessageFormatter : option FormatMessageValueFn;
  SortAttrs : bool;
  SourcePrefix : string;
  SourceFormatter : option FormatSourceValueFn;
  SpecificAttrFormatter : gmap string (option FormatAttrFn);
  TimePrefix : string;
  TimeFormatter : option FormatTimeValueFn
}.

Definition set_TimePrefix (p : string) (o : SlackMessageFormatterOptions) :=
  MkOptions (ApplicationIconURL o) (ApplicationName o) (AttrFormatter o) (IgnoreAttrs o)
    (IncludeAttrs o) (IncludeSource o) (LevelFormatter o) (MessageFormatter o)
    (SortAttrs o) (SourcePrefix o) (SourceFormatter o) (SpecificAttrFormatter o)
    p (TimeFormatter o).

Definition set_SourcePrefix (p : string) (o : SlackMessageFormatterOptions) :=
  MkOptions (ApplicationIconURL o) (ApplicationName o) (AttrFormatter o) (IgnoreAttrs o)
    (IncludeAttrs o) (IncludeSource o) (LevelFormatter o) (MessageFormatter o)
    (SortAttrs o) p (SourceFormatter o) (SpecificAttrFormatter o)
    (TimePrefix o) (TimeFormatter o).

(** formatSlackMessageLevelDefault: a switch over the slogx levels, first
    matching case first. *)
Definition formatSlackMessageLevelDefault (ctx : GoContext) (level : Level)
  : string * option error :=
  if decide (level = LevelTrace) then (":eyes: trace", None)
  else if decide (level = LevelDebug) then (":ladybug: debug", None)
  else if decide (level = LevelInfo) then (":information_source: info", None)
  else if decide (level = LevelNotice) then (":grey_exclamation: notice", None)
  else if decide (level = LevelWarn) then (":warning: warn", None)
  else if decide (level = LevelError) then (":no_entry: error", None)
  else if decide (level = LevelFatal) then (":rotating_light: fatal", None)
  else if decide (level = LevelPanic) then (":sos: panic", None)
  else (Sprintf_level level, None).

Definition DefaultSlackMessageFormatterOptions : SlackMessageFormatterOptions := {|
  ApplicationIconURL := "";
  ApplicationName := "";
  AttrFormatter := None;
  IgnoreAttrs := [];
  IncludeAttrs := true;
  IncludeSource := false;
  LevelFormatter := Some formatSlackMessageLevelDefault;
  MessageFormatter := None;
  SortAttrs := true;
  SourcePrefix := SlackMessageFormatterSourcePrefix;
  SourceFormatter := Some formatter_FormatSourceValueDefault;
  SpecificAttrFormatter := ∅;
  TimePrefix := SlackMessageFormatterTimePrefix;
  TimeFormatter := Some (λ ctx level t, (Time_Local_Clock t, None))
|}.

(** (o *SlackMessageFormatterOptions) AddToContext *)
Definition AddToContext (o : SlackMessageFormatterOptions) (ctx : GoContext) : GoContext :=
  WithValue SlackMessageFormatterOptions "slackMessageFormatterOptionsContext" o ctx.

(** slackMessageFormatter *)
Record slackMessageFormatter : Type := MkFormatter {
  ignoredAttrPatterns : list Regexp;
  options : SlackMessageFormatterOptions
}.

(** The loop of NewSlackMessageFormatter over opts.IgnoreAttrs: a pattern
    is appended when regexp.Compile returns no error. *)
Fixpoint compilePatterns (ps : list string) (acc : list Regexp) : list Regexp :=
  match ps with
  | [] => acc
  | p :: ps' =>
      match regexp_Compile p with
      | inl regex => compilePatterns ps' (acc ++ [regex])
      | inr err => compilePatterns ps' acc
      end
  end.

Definition NewSlackMessageFormatter (opts : SlackMessageFormatterOptions)
  : slackMessageFormatter :=
  let opts := if decide (TimePrefix opts = "")
              then set_TimePrefix SlackMessageFormatterTimePrefix opts else opts in
  let opts := if IncludeSource opts && bool_decide (SourcePrefix opts = "")
              then set_SourcePrefix SlackMessageFormatterSourcePrefix opts else opts in
  {| ignoredAttrPatterns := compilePatterns (IgnoreAttrs opts) [];
     options := opts |}.

Definition DefaultSlackMessageFormatter : slackMessageFormatter :=
  NewSlackMessageFormatter DefaultSlackMessageFormatterOptions.

(** *** Calls of the renderer hooks

    FormatRecord calls the configured hooks (or their defaults) in a fixed
    order and returns at the first error. A run of it is modelled as the
    list of hook calls made, each with the error it returned, and either the
    error the run stopped with or its value. *)

Inductive Hook : Type :=
| HookLevel
| HookTime
| HookSource
| HookSpecificAttr (key : string)
| HookAttr (key : string).

Definition Event : Type := Hook * option error.

Definition Run (A : Type) : Type := list Event * (error + A).

Definition ret {A} (a : A) : Run A := ([], inr a).

Definition fail {A} (e : error) : Run A := ([], inl e).

Definition bind {A B} (k : A → Run B) (m : Run A) : Run B :=
  match m with
  | (tr, inl e) => (tr, inl e)
  | (tr, inr a) => let '(tr', r) := k a in (tr ++ tr', r)
  end.

#[export] Instance Run_ret : MRet Run := @ret.
#[export] Instance Run_bind : MBind Run := @bind.

(** [strVal, err = hook(...); if err != nil { return nil, err }] *)
Definition call {A} (h : Hook) (res : A * option error) : Run A :=
  match res with
  | (a, None) => ([(h, None)], inr a)
  | (_, Some e) => ([(h, Some e)], inl e)
  end.

(** strings.LastIndex(s, ".") *)
Fixpoint LastIndexDot (s : string) : option nat :=
  match s with
  | EmptyString => None
  | String c s' =>
      match LastIndexDot s' with
      | Some i => Some (S i)
      | None => if Ascii.eqb c (Ascii.ascii_of_nat 46) then Some 0%nat else None
      end
  end.

(** fmt.Sprintf("*%s*: `%s`", key, text) *)
Definition markup (key text : string) : string :=
  "*" +:+ key +:+ "*: `" +:+ text +:+ "`".

(** The switch of attrToElement over the kind of the formatted value. *)
Definition valueText (formattedKey : string) (formattedValue : Value) : Run string :=
  match formattedValue with
  | BoolValue b => ret (markup formattedKey (if b then "true" else "false"))
  | StringValue s => ret (markup formattedKey s)
  | DurationValue d => ret (markup formattedKey (Duration_String d))
  | TimeValue t => ret (markup formattedKey (Time_UTC_RFC3339 t))
  | Float64Value f => ret (markup formattedKey (Sprintf_f f))
  | Int64Value i => ret (markup formattedKey (pretty i))
  | Uint64Value u => ret (markup formattedKey (pretty u))
  | GroupValue g => ret (markup formattedKey (Sprintf_group g))
  | AnyValue a | LogValuerValue a =>
      match any_MarshalText a with
      | Some (output, Some err) => fail err
      | Some (output, None) => ret (markup formattedKey output)
      | None => ret (markup formattedKey (any_text a))
      end
  end.

(** [p.MatchString(attrKey)] for some pattern of the formatter. *)
Definition ignored (f : slackMessageFormatter) (attrKey : string) : bool :=
  existsb (λ p, MatchString p attrKey) (ignoredAttrPatterns f).

(** attrToElement: [None] is the nil element of an ignored attribute. *)
Definition attrToElement (f : slackMessageFormatter) (ctx : GoContext) (level : Level)
    (attrKey : string) (attrValue : Value) : Run (option MixedElement) :=
  if ignored f attrKey then ret None
  else
    let '(group, actualAttrKey) :=
      match LastIndexDot attrKey with
      | Some groupIndex =>
          (String.substring 0 groupIndex attrKey,
           String.substring (groupIndex + 1) (String.length attrKey - (groupIndex + 1)) attrKey)
      | None => ("", attrKey)
      end in
    let formattedValue := Resolve attrValue in
    '(formattedKey, formattedValue) ←
      match SpecificAttrFormatter (options f) !! attrKey with
      | Some (Some fn) =>
          call (HookSpecificAttr attrKey) (fn ctx level group actualAttrKey formattedValue)
      | _ =>
          match AttrFormatter (options f) with
          | Some fn => call (HookAttr attrKey) (fn ctx level group actualAttrKey formattedValue)
          | None => ret (attrKey, formattedValue)
          end
      end;
    text ← valueText formattedKey formattedValue;
    ret (Some (TextBlockObject text)).

(** The loop of FormatRecord over the flattened attributes. *)
Fixpoint attrBlocks (f : slackMessageFormatter) (ctx : GoContext) (level : Level)
    (flattenedAttrs : list Attr) (blockSet : list Block) : Run (list Block) :=
  match flattenedAttrs with
  | [] => ret blockSet
  | attr :: rest =>
      element ← attrToElement f ctx level (Key attr) (Val attr);
      match element with
      | Some element => attrBlocks f ctx level rest (blockSet ++ [NewContextBlock "" [element]])
      | None => attrBlocks f ctx level rest blockSet
      end
  end.

Definition newline : string := String (Ascii.ascii_of_nat 10) EmptyString.

(** The body of FormatRecord. *)
Definition formatRecord (f : slackMessageFormatter) (ctx : GoContext) (timestamp : Z)
    (level : Level) (pc : Z) (msg : string) (attrs : list Attr) : Run WebhookMessage :=
  let o := options f in
  let handlerCtx := AddToContext o ctx in
  let blockSet := [DividerBlock] in
  let appLevelContextElements := [] in
  let appLevelContextElements :=
    if decide (ApplicationIconURL o ≠ "")
    then appLevelContextElements ++ [ImageBlockElement (ApplicationIconURL o) (ApplicationName o)]
    else appLevelContextElements in
  let appLevelContextElements :=
    if decide (ApplicationName o ≠ "")
    then appLevelContextElements ++ [TextBlockObject (ApplicationName o)]
    else appLevelContextElements in
  strVal ← call HookLevel
    match LevelFormatter o with
    | Some fn => fn handlerCtx level
    | None => formatter_FormatLevelValueDefault handlerCtx level
    end;
  let appLevelContextElements := appLevelContextElements ++ [TextBlockObject strVal] in
  let blockSet := blockSet ++ [NewContextBlock "" appLevelContextElements] in
  let timeSourceText := TimePrefix o in
  strVal ← call HookTime
    match TimeFormatter o with
    | Some fn => fn handlerCtx level timestamp
    | None => formatter_FormatTimeValueDefault handlerCtx level timestamp
    end;
  let timeSourceText := timeSourceText +:+ strVal in
  timeSourceText ←
    (if IncludeSource o then
       let timeSourceText := timeSourceText +:+ newline +:+ SourcePrefix o in
       strVal ← call HookSource
         match SourceFormatter o with
         | Some fn => fn handlerCtx level pc
         | None => formatter_FormatSourceValueDefault handlerCtx level pc
         end;
       ret (timeSourceText +:+ strVal)
     else ret timeSourceText);
  let blockSet := blockSet ++ [NewContextBlock "" [TextBlockObject timeSourceText]] in
  let blockSet := blockSet ++ [DividerBlock; SectionBlock msg] in
  blockSet ←
    (if IncludeAttrs o then
       let attrs := if SortAttrs o then slogx_SortAttrs attrs else attrs in
       let flattenedAttrs := slogx_FlattenAttrs attrs in
       attrBlocks f handlerCtx level flattenedAttrs blockSet
     else ret blockSet);
  ret (MkWebhookMessage blockSet).

(** FormatRecord returns [(message, nil)] or [(nil, err)]; the second
    component is the list of hook calls it made. *)
Definition FormatRecord (f : slackMessageFormatter) (ctx : GoContext) (timestamp : Z)
    (level : Level) (pc : Z) (msg : string) (attrs : list Attr)
  : (option WebhookMessage * option error) * list Event :=
  match formatRecord f ctx timestamp level pc msg attrs with
  | (tr, inr message) => ((Some message, None), tr)
  | (tr, inl err) => ((None, Some err), tr)
  end.

(** *** Notions the properties of the formatter are stated with *)


(** The flattened attributes FormatRecord walks over. *)
Definition flattened (f : slackMessageFormatter) (attrs : list Attr) : list Attr :=
  slogx_FlattenAttrs (if SortAttrs (options f) then slogx_SortAttrs attrs else attrs).

(** The flattened attributes that are not ignored. *)
Definition kept (f : slackMessageFormatter) (flattenedAttrs : list Attr) : list Attr :=
  filter (λ a, ignored f (Key a) = false) flattenedAttrs.

(** The patterns of opts.IgnoreAttrs that compile, in order. *)
Definition compiled (ps : list string) : list Regexp :=
  omap (λ p, match regexp_Compile p with inl regex => Some regex | inr _ => None end) ps.

End WithImports.
End Formatter.

(** ** Go slices

    A slice is a header (backing array, length, capacity); [append] writes
    into the backing array when the capacity suffices and moves to a new,
    larger array otherwise. Backing arrays of one element type are kept in
    a list, the address of an array being its index. *)

Module Slice.

Record slice : Type := MkSlice { ptr : nat; len : nat; cap : nat }.

Abbreviation arrays A := (list (list A)) (only parsing).

(** [[]T{}]: no element and no capacity; its array is never read or
    written. *)
Definition empty : slice := MkSlice 0 0 0.

(** The elements a slice shows: the first [len] cells of its array. *)
Definition elems {A} (m : arrays A) (s : slice) : list A :=
  take (len s) (default [] (m !! ptr s)).

(** The loop of the runtime's growslice for capacities from 256 on:
    [for 0 < newcap && newcap < newLen { newcap += (newcap + 3*256) / 4 }];
    every turn adds at least 192, so [newLen] turns are enough. *)
Fixpoint growloop (fuel newcap newLen : nat) : nat :=
  match fuel with
  | O => newcap
  | S fuel' =>
      if bool_decide (0 < newcap ∧ newcap < newLen)%nat
      then growloop fuel' (newcap + (newcap + 3 * 256) / 4)%nat newLen
      else newcap
  end.

(** The capacity growslice asks for (Go 1.21). The allocator may round the
    request up to a size class, which only adds capacity; for elements of
    16 and 40 bytes the requests 1, 2 and 4 are not rounded. *)
Definition nextslicecap (newLen oldCap : nat) : nat :=
  let doublecap := (oldCap + oldCap)%nat in
  if bool_decide (doublecap < newLen)%nat then newLen
  else if bool_decide (oldCap < 256)%nat then doublecap
  else growloop newLen oldCap newLen.

(** [append(s, xs...)]; [zero] fills the cells of a new array beyond the
    length. *)
Definition append {A} (zero : A) (m : arrays A) (s : slice) (xs : list A)
  : arrays A * slice :=
  let newLen := (len s + length xs)%nat in
  if bool_decide (newLen ≤ cap s)%nat then
    (alter (λ arr, take (len s) arr ++ xs ++ drop newLen arr) (ptr s) m,
     MkSlice (ptr s) newLen (cap s))
  else
    let newcap := nextslicecap newLen (cap s) in
    (m ++ [elems m s ++ xs ++ replicate (newcap - newLen) zero],
     MkSlice (length m) newLen newcap).

(** A slice is well formed in [m] when its length is within its capacity
    and its capacity within its backing array. *)
Definition wf {A} (m : arrays A) (s : slice) : Prop :=
  (len s ≤ cap s ∧ cap s ≤ length (default [] (m !! ptr s)))%nat.

End Slice.

(** ** handler.go *)

Module Handler.
Import Slice.
Section WithImports.
Context `{Imports}.

(** The SlackMessageFormatter interface: its one method. *)
Definition SlackMessageFormatter : Type :=
  GoContext → Z → Level → Z → string → list Attr → option WebhookMessage * option error.

(** SlackHandlerOptions; nil is [None]. *)
Record SlackHandlerOptions : Type := MkHandlerOptions {
  EnableAsync : bool;
  HTTPClient_ : option HTTPClient;
  Level_ : option Level;
  RecordFormatter : option SlackMessageFormatter;
  WebhookURL : string
}.

(** slackHandler *)
Record slackHandler : Type := MkHandler {
  activeGroup : string;
  attrs : slice;
  futures : slice;
  groups : slice;
  options : SlackHandlerOptions
}.

(** async.Future: nil or the task started by async.Exec. *)
Definition Future : Type := option nat.

(** A task started by async.Exec(func() any { return h.handle(handlerCtx, r) }):
    it holds the pointer [h], the context and the record until it has run. *)
Inductive task : Type :=
| Running (h : nat) (handlerCtx : GoContext) (r : Record_)
| Finished (result : option error).

(** The memory the handlers live in: the backing arrays of the three
    slice fields, the handler objects ([*slackHandler] is an index) and the
    tasks. *)
Record store : Type := MkStore {
  attrArrays : arrays Attr;
  groupArrays : arrays string;
  futureArrays : arrays Future;
  handlers : list slackHandler;
  tasks : list task
}.

Definition emptyStore : store := MkStore [] [] [] [] [].

Definition set_attrArrays (m : arrays Attr) (st : store) : store :=
  MkStore m (groupArrays st) (futureArrays st) (handlers st) (tasks st).
Definition set_groupArrays (m : arrays string) (st : store) : store :=
  MkStore (attrArrays st) m (futureArrays st) (handlers st) (tasks st).
Definition set_futureArrays (m : arrays Future) (st : store) : store :=
  MkStore (attrArrays st) (groupArrays st) m (handlers st) (tasks st).
Definition set_handlers (hs : list slackHandler) (st : store) : store :=
  MkStore (attrArrays st) (groupArrays st) (futureArrays st) hs (tasks st).
Definition set_tasks (ts : list task) (st : store) : store :=
  MkStore (attrArrays st) (groupArrays st) (futureArrays st) (handlers st) ts.

(** [&slackHandler{...}] *)
Definition new (h : slackHandler) (st : store) : nat * store :=
  (length (handlers st), set_handlers (handlers st ++ [h]) st).

(** What a handler shows of its three slices. *)
Definition attrsOf (st : store) (h : slackHandler) : list Attr :=
  elems (attrArrays st) (attrs h).
Definition groupsOf (st : store) (h : slackHandler) : list string :=
  elems (groupArrays st) (groups h).
Definition futuresOf (st : store) (h : slackHandler) : list Future :=
  elems (futureArrays st) (futures h).

(** The zero values of slog.Attr, string and async.Future. *)
Definition zeroAttr : Attr := MkAttr "" (AnyValue (MkAny "<nil>" None)).

(** slog.LevelInfo *)
Definition slog_LevelInfo : Level := 0.

(** NewSlackHandler: [(handler, nil)] or [(nil, err)]. *)
Definition NewSlackHandler (opts : SlackHandlerOptions) (st : store)
  : (option nat * option error) * store :=
  if decide (WebhookURL opts = "") then
    ((None, Some "webhook URL is required and cannot be empty"), st)
  else
    let client := match HTTPClient_ opts with
                  | None => Some http_DefaultClient
                  | Some c => Some c
                  end in
    let level := match Level_ opts with
                 | None => Some slog_LevelInfo
                 | Some l => Some l
                 end in
    let opts := MkHandlerOptions (EnableAsync opts) client level (RecordFormatter opts)
                  (WebhookURL opts) in
    let '(h, st) := new (MkHandler "" Slice.empty Slice.empty Slice.empty opts) st in
    ((Some h, None), st).

(** Enabled; a nil Level is a nil dereference, [None]. *)
Definition Enabled (h : slackHandler) (level : Level) : option bool :=
  l ← Level_ (options h); Some (bool_decide (l ≤ level)%Z).

(** handle (value receiver): consolidate, format, post. *)
Definition handle (h : slackHandler) (ctx : GoContext) (r : Record_) (st : store)
  : option error :=
  let attrs := slogx_ConsolidateAttrs (attrsOf st h) (activeGroup h) r in
  let '(message, err) :=
    match RecordFormatter (options h) with
    | Some FormatRecord =>
        FormatRecord ctx (r_Time r) (r_Level r) (r_PC r) (r_Message r) attrs
    | None =>
        (Formatter.FormatRecord Formatter.DefaultSlackMessageFormatter ctx
           (r_Time r) (r_Level r) (r_PC r) (r_Message r) attrs).1
    end in
  match err with
  | Some err => Some err
  | None => slack_PostWebhookCustomHTTP (WebhookURL (options h)) (HTTPClient_ (options h)) message
  end.

(** Handle (pointer receiver); [None] is a dereference of a pointer that
    is not in the store. *)
Definition Handle (hp : nat) (ctx : GoContext) (r : Record_) (st : store)
  : option (option error * store) :=
  h ← handlers st !! hp;
  let handlerCtx := WithValue SlackHandlerOptions "SlackHandlerOptionsContext" (options h) ctx in
  if negb (EnableAsync (options h)) then
    Some (handle h handlerCtx r st, st)
  else
    let future := Some (length (tasks st)) in
    let st := set_tasks (tasks st ++ [Running hp handlerCtx r]) st in
    let '(m, s) := append None (futureArrays st) (futures h) [future] in
    let h := MkHandler (activeGroup h) (attrs h) s (groups h) (options h) in
    Some (None, set_handlers (<[hp := h]> (handlers st)) (set_futureArrays m st)).

(** A started task runs at some point: it calls [h.handle] on the handler
    its pointer shows then. *)
Definition runTask (id : nat) (st : store) : store :=
  match tasks st !! id with
  | Some (Running hp handlerCtx r) =>
      match handlers st !! hp with
      | Some h => set_tasks (<[id := Finished (handle h handlerCtx r st)]> (tasks st)) st
      | None => st
      end
  | _ => st
  end.

(** f.Await(): returns once the task has finished. *)
Definition Await (f : nat) (st : store) : store := runTask f st.

(** The loop of Shutdown over h.futures. *)
Fixpoint awaitAll (fs : list Future) (st : store) : store :=
  match fs with
  | [] => st
  | Some f :: fs' => awaitAll fs' (Await f st)
  | None :: fs' => awaitAll fs' st
  end.

(** Shutdown (value receiver) *)
Definition Shutdown (h : slackHandler) (continueOnError : bool) (st : store)
  : option error * store :=
  (None, awaitAll (futuresOf st h) st).

(** WithAttrs (value receiver): the new handler's address and the store. *)
Definition WithAttrs (h : slackHandler) (attrs_ : list Attr) (st : store) : nat * store :=
  let newHandler := MkHandler "" (attrs h) (futures h) (groups h) (options h) in
  if decide (activeGroup h = "") then
    let '(m, s) := append zeroAttr (attrArrays st) (attrs newHandler) attrs_ in
    new (MkHandler (activeGroup newHandler) s (futures newHandler) (groups newHandler)
           (options newHandler))
        (set_attrArrays m st)
  else
    let '(m, s) := append zeroAttr (attrArrays st) (attrs newHandler)
                     [Group (activeGroup h) attrs_] in
    new (MkHandler (activeGroup h) s (futures newHandler) (groups newHandler)
           (options newHandler))
        (set_attrArrays m st).

(** WithGroup (value receiver) *)
Definition WithGroup (h : slackHandler) (name : string) (st : store) : nat * store :=
  let newHandler := MkHandler "" (attrs h) (futures h) (groups h) (options h) in
  if decide (name ≠ "") then
    let '(m, s) := append "" (groupArrays st) (groups newHandler) [name] in
    new (MkHandler name (attrs newHandler) (futures newHandler) s (options newHandler))
        (set_groupArrays m st)
  else new newHandler st.

(** The same methods called on a handler pointer, as slog.Logger calls
    them; [None] is a pointer that is not in the store. *)
Definition WithAttrsP (hp : nat) (attrs_ : list Attr) (st : store) : option (nat * store) :=
  h ← handlers st !! hp; Some (WithAttrs h attrs_ st).

Definition WithGroupP (hp : nat) (name : string) (st : store) : option (nat * store) :=
  h ← handlers st !! hp; Some (WithGroup h name st).

Definition ShutdownP (hp : nat) (continueOnError : bool) (st : store)
  : option (option error * store) :=
  h ← handlers st !! hp; Some (Shutdown h continueOnError st).

(** [h.WithGroup(g1).WithGroup(g2)...] *)
Fixpoint openGroups (gs : list string) (hp : nat) (st : store) : option (nat * store) :=
  match gs with
  | [] => Some (hp, st)
  | g :: gs' => '(hp', st') ← WithGroupP hp g st; openGroups gs' hp' st'
  end.

(** The tasks a future may name. *)
Definition futureOk (st : store) (f : Future) : Prop :=
  ∀ id, f = Some id → (id < length (tasks st))%nat.

(** The stores the program builds: every handler's slices are well formed,
    a running task points to a handler, and a future names a task. *)
Record store_wf (st : store) : Prop := MkStoreWf {
  wf_attrs : ∀ hp h, handlers st !! hp = Some h → Slice.wf (attrArrays st) (attrs h);
  wf_groups : ∀ hp h, handlers st !! hp = Some h → Slice.wf (groupArrays st) (groups h);
  wf_futures : ∀ hp h, handlers st !! hp = Some h → Slice.wf (futureArrays st) (futures h);
  wf_tasks : ∀ id hp ctx r,
    tasks st !! id = Some (Running hp ctx r) → (hp < length (handlers st))%nat;
  wf_cells : Forall (Forall (futureOk st)) (futureArrays st)
}.

End WithImports.
End Handler.

(** ** The slogx helpers, after the specification *)

Module Slogx.

(** [prefix.k], or [k] at the root. *)
Definition dotted (prefix k : string) : string :=
  if decide (prefix = "") then k else prefix +:+ "." +:+ k.

(** Modelled from the spec: slogx.FlattenAttrs is imported from
    go.innotegrity.dev/slogx. It walks nested groups and gives one entry for
    every value that is not a group, under the names of the groups above it
    and its own key joined with "."; a group itself gives no entry. *)
Fixpoint flattenValue (key : string) (v : Value) {struct v} : list Attr :=
  match v with
  | GroupValue g =>
      (fix walk (l : list Attr) : list Attr :=
         match l with
         | [] => []
         | MkAttr k v' :: l' => flattenValue (dotted key k) v' ++ walk l'
         end) g
  | _ => [MkAttr key v]
  end.

Definition FlattenAttrs (attrs : list Attr) : list Attr :=
  flat_map (λ a, flattenValue (Key a) (Val a)) attrs.

(** Modelled from the spec: slogx.SortAttrs is imported from
    go.innotegrity.dev/slogx; a stable sort on the key. *)
Definition keyLe (a b : Attr) : Prop := String.leb (Key a) (Key b) = true.

#[export] Instance keyLe_dec : RelDecision keyLe.
Proof. intros a b. unfold keyLe. apply _. Defined.

Definition SortAttrs (attrs : list Attr) : list Attr := merge_sort keyLe attrs.

(** Modelled from the spec: slogx.ConsolidateAttrs is imported from
    go.innotegrity.dev/slogx; the inherited attributes, then those of the
    record. The specification's scenario has the inherited [g.k] followed by
    the record's [k2], so the active group does not wrap either part. *)
Definition ConsolidateAttrs (inherited : list Attr) (activeGroup : string) (r : Record_)
  : list Attr :=
  inherited ++ r_Attrs r.

End Slogx.

(** ** An instance of the imports to run the program on

    Contexts carry nothing, the text forms are decimal, and the regular
    expressions are the literal ones: a pattern without metacharacter
    compiles and matches the keys that contain it, as in Go; any other
    pattern is refused here, which Go does for the malformed "(" and "*"
    that the examples use. *)

Module Sample.

Definition metachars : list Ascii.ascii :=
  String.list_ascii_of_string "\.+*?()|[]{}^$".

Definition Compile (p : string) : string + error :=
  if forallb (λ c, negb (existsb (Ascii.eqb c) metachars)) (String.list_ascii_of_string p)
  then inl p
  else inr ("error parsing regexp: " +:+ p).

Fixpoint contains (p s : string) : bool :=
  String.prefix p s ||
  match s with
  | EmptyString => false
  | String _ s' => contains p s'
  end.

Definition ok (s : string) : string * option error := (s, None).

#[export] Instance imports : Imports := {|
  GoContext := unit;
  WithValue := λ V key v ctx, ctx;
  Regexp := string;
  regexp_Compile := Compile;
  MatchString := contains;
  slogx_SortAttrs := Slogx.SortAttrs;
  slogx_FlattenAttrs := Slogx.FlattenAttrs;
  slogx_ConsolidateAttrs := Slogx.ConsolidateAttrs;
  formatter_FormatLevelValueDefault := λ ctx level, ok (pretty level);
  formatter_FormatTimeValueDefault := λ ctx level t, ok (pretty t);
  formatter_FormatSourceValueDefault := λ ctx level pc, ok (pretty pc);
  Resolve := λ v, v;
  LevelTrace := -8; LevelDebug := -4; LevelInfo := 0; LevelNotice := 2;
  LevelWarn := 4; LevelError := 8; LevelFatal := 12; LevelPanic := 16;
  Duration_String := λ d, pretty d +:+ "ns";
  Time_UTC_RFC3339 := pretty;
  Time_Local_Clock := pretty;
  Sprintf_f := pretty;
  Sprintf_group := λ g, "[" +:+ pretty (Z.of_nat (length g)) +:+ "]";
  Sprintf_level := pretty;
  HTTPClient := unit;
  http_DefaultClient := tt;
  slack_PostWebhookCustomHTTP := λ url client msg,
    if decide (url = "https://hooks.invalid/") then Some "no such host" else None
|}.

End Sample.

(** ** Runs of the program on the sample imports *)

Module Scenario.
Import Slice Formatter Handler Sample.

(** A formatter with an application name and two ignore patterns, the
    second of which does not compile. *)
Definition formatterOptions : SlackMessageFormatterOptions :=
  MkOptions "" "slogx" None ["secret"; "("] true false None None true "" None ∅ "" None.

Definition aFormatter : slackMessageFormatter := NewSlackMessageFormatter formatterOptions.



Definition someAttrs : list Attr :=
  [MkAttr "took" (DurationValue 5);
   Group "g" [MkAttr "secret" (StringValue "x"); MkAttr "b" (BoolValue true)];
   MkAttr "a" (Int64Value (-3))].

Definition aRecord : Record_ := MkRecord 0 0 0 "hello" [MkAttr "k2" (StringValue "v2")].

Definition syncOptions : SlackHandlerOptions :=
  MkHandlerOptions false None None None "https://hooks.example/T000".

Definition asyncOptions : SlackHandlerOptions :=
  MkHandlerOptions true None None None "https://hooks.example/T000".

(** An asynchronous handler whose posts fail. *)
Definition asyncFailingOptions : SlackHandlerOptions :=
  MkHandlerOptions true None None None "https://hooks.invalid/".

(** The store after NewSlackHandler(opts) on the empty store; the handler
    is at address 0. *)
Definition started (opts : SlackHandlerOptions) : store :=
  (NewSlackHandler opts emptyStore).2.

(** The store after Handle on the handler at address 0. *)
Definition handled (st : store) : store :=
  match Handle 0 tt aRecord st with
  | Some (_, st') => st'
  | None => st
  end.

(** The store after three Handle calls. *)
Definition afterThreeHandles (opts : SlackHandlerOptions) : store :=
  handled (handled (handled (started opts))).

(** [path] joined with "." *)
Fixpoint dottedPath (path : list string) : string :=
  match path with
  | [] => ""
  | [k] => k
  | g :: rest => g +:+ "." +:+ dottedPath rest
  end.

(** The flattened keys a new handler holds after
    [WithGroup(g1)...WithGroup(gn).WithAttrs([k=v])]. *)
Definition keysAfter (gs : list string) (k : string) (v : Value) : option (list string) :=
  '(hp, st) ← openGroups gs 0%nat (started syncOptions);
  '(hp, st) ← WithAttrsP hp [MkAttr k v] st;
  h ← handlers st !! hp;
  Some (map Key (Slogx.FlattenAttrs (attrsOf st h))).

(** C2 as the specification states it: one level per open group. *)
Definition nestedPerOpenGroup (gs : list string) (k : string) (v : Value) : Prop :=
  keysAfter gs k v = Some [dottedPath (gs ++ [k])].

Definition attr (k : string) : Attr := MkAttr k (StringValue k).

(** Two children of one parent: [base := h.WithAttrs(a).WithAttrs(b).WithAttrs(c)],
    then [A := base.WithAttrs(x)] and [B := base.WithAttrs(y)]. The result is
    what A shows before and after B is derived. *)
Definition twoChildren : option (list Attr * list Attr) :=
  '(h1, st) ← WithAttrsP 0%nat [attr "a"] (started syncOptions);
  '(h2, st) ← WithAttrsP h1 [attr "b"] st;
  '(base, st) ← WithAttrsP h2 [attr "c"] st;
  '(hA, stA) ← WithAttrsP base [attr "x"] st;
  '(hB, stB) ← WithAttrsP base [attr "y"] stA;
  A ← handlers stA !! hA;
  A' ← handlers stB !! hA;
  Some (attrsOf stA A, attrsOf stB A').

(** The same with groups: what A shows of its open groups before and
    after B is derived. *)
Definition twoChildGroups : option (list string * list string) :=
  '(base, st) ← openGroups ["a"; "b"; "c"] 0%nat (started syncOptions);
  '(hA, stA) ← WithGroupP base "x" st;
  '(hB, stB) ← WithGroupP base "y" stA;
  A ← handlers stA !! hA;
  A' ← handlers stB !! hA;
  Some (groupsOf stA A, groupsOf stB A').

End Scenario.

(** ** Parts of FormatRecord and attrToElement, named

    The pieces below are sub-expressions of [formatRecord] and
    [attrToElement], given names so that properties can speak of them. *)

Module FormatterParts.
Import Formatter.
Section WithImports.
Context `{Imports}.

(** attrToElement, "extract the group name and attribute from the key":
    the part before the last "." and the part after it. *)
Definition splitKey (attrKey : string) : string * string :=
  match LastIndexDot attrKey with
  | Some groupIndex =>
      (String.substring 0 groupIndex attrKey,
       String.substring (groupIndex + 1) (String.length attrKey - (groupIndex + 1)) attrKey)
  | None => ("", attrKey)
  end.

(** attrToElement from the call of a formatter on: the error check, the
    switch over the kind, the element. *)
Definition finish (hook : Hook) (res : string * Value * option error)
  : Run (option MixedElement) :=
  '(formattedKey, formattedValue) ← call hook res;
  text ← valueText formattedKey formattedValue;
  mret (Some (TextBlockObject text)).

(** What the level, time and source hooks of FormatRecord return: the
    configured function or the default of the formatter package. *)
Definition levelResult (f : slackMessageFormatter) (ctx : GoContext) (level : Level)
  : string * option error :=
  match LevelFormatter (options f) with
  | Some fn => fn (AddToContext (options f) ctx) level
  | None => formatter_FormatLevelValueDefault (AddToContext (options f) ctx) level
  end.

Definition timeResult (f : slackMessageFormatter) (ctx : GoContext) (level : Level)
    (timestamp : Z) : string * option error :=
  match TimeFormatter (options f) with
  | Some fn => fn (AddToContext (options f) ctx) level timestamp
  | None => formatter_FormatTimeValueDefault (AddToContext (options f) ctx) level timestamp
  end.

Definition sourceResult (f : slackMessageFormatter) (ctx : GoContext) (level : Level)
    (pc : Z) : string * option error :=
  match SourceFormatter (options f) with
  | Some fn => fn (AddToContext (options f) ctx) level pc
  | None => formatter_FormatSourceValueDefault (AddToContext (options f) ctx) level pc
  end.

(** The elements of the first context block before the level text: the
    icon and the application name, each when it is not empty. *)
Definition appElements (o : SlackMessageFormatterOptions) : list MixedElement :=
  (if decide (ApplicationIconURL o ≠ "")
   then [ImageBlockElement (ApplicationIconURL o) (ApplicationName o)] else [])
  ++ (if decide (ApplicationName o ≠ "") then [TextBlockObject (ApplicationName o)] else []).

(** The text of the second context block: the time, and the source on a
    new line when there is one. *)
Definition timeSourceText (o : SlackMessageFormatterOptions) (tm : string)
    (src : option string) : string :=
  match src with
  | None => TimePrefix o +:+ tm
  | Some src => ((TimePrefix o +:+ tm) +:+ newline +:+ SourcePrefix o) +:+ src
  end.

(** The five blocks FormatRecord builds before the attributes. *)
Definition headBlocks (o : SlackMessageFormatterOptions) (lv tm : string)
    (src : option string) (msg : string) : list Block :=
  [DividerBlock;
   NewContextBlock "" (appElements o ++ [TextBlockObject lv]);
   NewContextBlock "" [TextBlockObject (timeSourceText o tm src)];
   DividerBlock;
   SectionBlock msg].

(** "add attributes (if requested)": the end of FormatRecord, after the
    hook calls [tr] and with the blocks built so far. *)
Definition addAttrs (f : slackMessageFormatter) (ctx : GoContext) (level : Level)
    (attrs : list Attr) (tr : list Event) (blockSet : list Block) : Run WebhookMessage :=
  if IncludeAttrs (options f) then
    match attrBlocks f (AddToContext (options f) ctx) level (flattened f attrs) blockSet with
    | (tr', inl e) => (tr ++ tr', inl e)
    | (tr', inr blockSet) => (tr ++ tr', inr (MkWebhookMessage blockSet))
    end
  else (tr, inr (MkWebhookMessage blockSet)).

(** The hook calls of the attribute loop. *)
Definition attrEvents (f : slackMessageFormatter) (ctx : GoContext) (level : Level)
    (attrs : list Attr) : list Event :=
  (attrBlocks f ctx level attrs []).1.

(** The hook calls of the attribute step, when attributes are included. *)
Definition attrsPart (f : slackMessageFormatter) (ctx : GoContext) (level : Level)
    (attrs : list Attr) : list Event :=
  if IncludeAttrs (options f)
  then attrEvents f (AddToContext (options f) ctx) level (flattened f attrs)
  else [].

(** A hook of an attribute. *)
Definition isAttrHook (h : Hook) : bool :=
  match h with
  | HookSpecificAttr _ | HookAttr _ => true
  | _ => false
  end.

(** A value whose MarshalText fails with [e]. *)
Definition marshalFails (v : Value) (e : error) : Prop :=
  match v with
  | AnyValue a | LogValuerValue a => ∃ output, any_MarshalText a = Some (output, Some e)
  | _ => False
  end.

End WithImports.
End FormatterParts.

(** ** Further runs on the sample imports *)

Module Scenario2.
Import Slice Formatter Handler Sample Scenario.

(** An attribute formatter that refuses the leaf "b" and leaves every
    other attribute as it is. *)
Definition pickyAttr : FormatAttrFn :=
  λ ctx level group leaf v,
    if decide (leaf = "b") then ("", v, Some "no b") else (leaf, v, None).

Definition pickyFormatter : slackMessageFormatter :=
  NewSlackMessageFormatter
    (MkOptions "" "slogx" (Some pickyAttr) [] true false None None true "" None ∅ "" None).

(** The store after [WithGroup("g")] on the first handler; the new handler
    is at address 1 and has the active group "g". *)
Definition grouped : store :=
  match WithGroupP 0%nat "g" (started syncOptions) with
  | Some (_, st) => st
  | None => started syncOptions
  end.

End Scenario2.

(** * Properties of the formatter *)

Module FormatterFacts.
Import Formatter.
Section WithImports.
Context `{Imports}.










(** What a successful attrToElement returns: nil for an ignored key, a
    text element otherwise. *)
Lemma attrToElement_ok f ctx level key v tr el :
  attrToElement f ctx level key v = (tr, inr el) →
  (ignored f key = true ∧ el = None) ∨
  (ignored f key = false ∧ ∃ text, el = Some (TextBlockObject text)).
Proof.
  unfold attrToElement. destruct (ignored f key).
  - intros [= <- <-]. by left.
  - intros Hrun. right. split; [done|].
    destruct (match LastIndexDot key with Some _ => _ | None => _ end) as [group actual].
    unfold mbind, Run_bind, bind in Hrun.
    destruct (match SpecificAttrFormatter (options f) !! key with Some _ => _ | None => _ end)
      as [tr1 [e1|[k' v']]]; [done|].
    destruct (valueText k' v') as [tr2 [e2|text]]; [done|].
    simpl in Hrun. injection Hrun as _ <-. by eexists.
Qed.

(** The attribute loop appends one context block per attribute that is not
    ignored, each holding the element attrToElement returned for it. *)
Lemma attrBlocks_ok f ctx level attrs blockSet tr blockSet' :
  attrBlocks f ctx level attrs blockSet = (tr, inr blockSet') →
  ∃ elems,
    blockSet' = blockSet ++ map (λ e, NewContextBlock "" [e]) elems ∧
    Forall2 (λ a e, (attrToElement f ctx level (Key a) (Val a)).2 = inr (Some e))
      (kept f attrs) elems.
Proof.
  revert blockSet tr. induction attrs as [|attr rest IH]; intros blockSet tr; simpl.
  - intros [= <- <-]. exists []. by rewrite app_nil_r.
  - unfold mbind, Run_bind, bind.
    destruct (attrToElement f ctx level (Key attr) (Val attr)) as [tr1 [e1|el]] eqn:Hel;
      [done|].
    destruct (attrToElement_ok _ _ _ _ _ _ _ Hel) as [[Hig ->]|[Hig [text ->]]].
    + destruct (attrBlocks f ctx level rest blockSet) as [tr2 r] eqn:Hrest.
      intros [= <- ->]. destruct (IH _ _ Hrest) as (elems & -> & Hall).
      exists elems. split; [done|]. unfold kept. rewrite filter_cons_False; [done|].
      by rewrite Hig.
    + destruct (attrBlocks f ctx level rest _) as [tr2 r] eqn:Hrest.
      intros [= <- ->]. destruct (IH _ _ Hrest) as (elems & -> & Hall).
      exists (TextBlockObject text :: elems). split.
      * by rewrite <- app_assoc.
      * unfold kept. rewrite filter_cons_True; [|done].
        constructor; [by rewrite Hel|done].
Qed.

(** The shape of a message FormatRecord returns: five leading blocks, then
    the context blocks of the attribute loop. *)
Lemma formatRecord_ok f ctx timestamp level pc msg attrs tr m :
  formatRecord f ctx timestamp level pc msg attrs = (tr, inr m) →
  ∃ ctx1 ctx2 elems,
    BlockSet m = [DividerBlock; ctx1; ctx2; DividerBlock; SectionBlock msg]
                   ++ map (λ e, NewContextBlock "" [e]) elems ∧
    Forall2 (λ a e, (attrToElement f (AddToContext (options f) ctx) level (Key a) (Val a)).2
                      = inr (Some e))
      (if IncludeAttrs (options f) then kept f (flattened f attrs) else []) elems.
Proof.
  unfold formatRecord, mbind, Run_bind, bind.
  destruct (call HookLevel _) as [tr1 [e1|strVal]]; [done|].
  destruct (call HookTime _) as [tr2 [e2|strVal2]]; [done|].
  set (src := if IncludeSource (options f) then _ else _).
  destruct src as [tr3 [e3|timeSourceText]]; [done|].
  destruct (IncludeAttrs (options f)).
  - destruct (attrBlocks _ _ _ _ _) as [tr4 [e4|blockSet]] eqn:Hloop; [done|].
    simpl. intros [= _ <-]. apply attrBlocks_ok in Hloop as (elems & -> & Hall).
    simpl. eexists _, _, elems. split; [reflexivity|done].
  - simpl. intros [= _ <-]. simpl. eexists _, _, []. split; [reflexivity|constructor].
Qed.

(** C1: a message FormatRecord returns has 5 blocks plus, when IncludeAttrs
    is set, one block per flattened attribute whose key no ignore pattern
    matches. *)
Theorem FormatRecord_block_count f ctx timestamp level pc msg attrs m :
  (FormatRecord f ctx timestamp level pc msg attrs).1 = (Some m, None) →
  length (BlockSet m) =
    (5 + (if IncludeAttrs (options f)
          then length (filter (λ a, ignored f (Key a) = false)
                         (slogx_FlattenAttrs
                            (if SortAttrs (options f) then slogx_SortAttrs attrs else attrs)))
          else 0))%nat.
Proof.
  unfold FormatRecord.
  destruct (formatRecord f ctx timestamp level pc msg attrs) as [tr [e|m']] eqn:Hrun;
    [done|].
  intros [= ->]. apply formatRecord_ok in Hrun as (c1 & c2 & elems & -> & Hall).
  apply Forall2_length in Hall. rewrite length_app, length_map, <- Hall. simpl.
  by destruct (IncludeAttrs (options f)).
Qed.

Lemma compilePatterns_compiled ps acc : compilePatterns ps acc = acc ++ compiled ps.
Proof.
  revert acc. induction ps as [|p ps IH]; intros acc; simpl.
  - by rewrite app_nil_r.
  - unfold compiled. simpl. destruct (regexp_Compile p) as [regex|err].
    + rewrite IH. by rewrite <- app_assoc.
    + apply IH.
Qed.

Lemma IgnoreAttrs_New opts :
  IgnoreAttrs (options (NewSlackMessageFormatter opts)) = IgnoreAttrs opts
  ∧ ignoredAttrPatterns (NewSlackMessageFormatter opts) = compiled (IgnoreAttrs opts).
Proof.
  unfold NewSlackMessageFormatter. simpl.
  assert (∀ o p, IgnoreAttrs (set_TimePrefix p o) = IgnoreAttrs o) as Ht by done.
  assert (∀ o p, IgnoreAttrs (set_SourcePrefix p o) = IgnoreAttrs o) as Hs by done.
  assert (IgnoreAttrs
            (if IncludeSource
                  (if decide (TimePrefix opts = "")
                   then set_TimePrefix SlackMessageFormatterTimePrefix opts else opts)
                && bool_decide
                     (SourcePrefix
                        (if decide (TimePrefix opts = "")
                         then set_TimePrefix SlackMessageFormatterTimePrefix opts else opts)
                      = "")
             then set_SourcePrefix SlackMessageFormatterSourcePrefix
                    (if decide (TimePrefix opts = "")
                     then set_TimePrefix SlackMessageFormatterTimePrefix opts else opts)
             else if decide (TimePrefix opts = "")
                  then set_TimePrefix SlackMessageFormatterTimePrefix opts else opts)
          = IgnoreAttrs opts) as Heq.
  { destruct (_ && _); rewrite ?Hs; destruct (decide _); by rewrite ?Ht. }
  split; [exact Heq|]. rewrite Heq. by rewrite compilePatterns_compiled.
Qed.

Lemma ignored_New opts key :
  ignored (NewSlackMessageFormatter opts) key = true ↔
  ∃ p regex, p ∈ IgnoreAttrs opts ∧ regexp_Compile p = inl regex
             ∧ MatchString regex key = true.
Proof.
  unfold ignored. rewrite (proj2 (IgnoreAttrs_New opts)).
  rewrite existsb_exists. unfold compiled. split.
  - intros (regex & Hin & Hm). apply list_elem_of_In, list_elem_of_omap in Hin
      as (p & Hp & Hc).
    exists p, regex. destruct (regexp_Compile p); naive_solver.
  - intros (p & regex & Hp & Hc & Hm). exists regex. split; [|done].
    apply list_elem_of_In, list_elem_of_omap. exists p. by rewrite Hc.
Qed.

(** C5: in the message FormatRecord returns, the blocks after the five
    leading ones are the elements of a sub-list [shown] of the flattened
    attributes, one block each, and no attribute whose key matches a
    compiled pattern of opts.IgnoreAttrs is in [shown], whatever SortAttrs
    and the other options are. *)
Theorem ignored_attr_has_no_block opts ctx timestamp level pc msg attrs m :
  (FormatRecord (NewSlackMessageFormatter opts) ctx timestamp level pc msg attrs).1
    = (Some m, None) →
  ∃ head shown elems,
    BlockSet m = head ++ map (λ e, NewContextBlock "" [e]) elems ∧
    length head = 5%nat ∧
    shown `sublist_of` flattened (NewSlackMessageFormatter opts) attrs ∧
    Forall2 (λ a e,
        (attrToElement (NewSlackMessageFormatter opts)
           (AddToContext (options (NewSlackMessageFormatter opts)) ctx)
           level (Key a) (Val a)).2 = inr (Some e)) shown elems ∧
    ∀ a p regex,
      p ∈ IgnoreAttrs opts → regexp_Compile p = inl regex →
      MatchString regex (Key a) = true → a ∉ shown.
Proof.
  unfold FormatRecord.
  destruct (formatRecord _ ctx timestamp level pc msg attrs) as [tr [e|m']] eqn:Hrun;
    [done|].
  intros [= ->]. apply formatRecord_ok in Hrun as (c1 & c2 & elems & Hm & Hall).
  eexists _, _, elems. split; [exact Hm|]. split; [done|].
  split; [|split; [exact Hall|]].
  - destruct (IncludeAttrs _); [apply sublist_filter|apply sublist_nil_l].
  - intros a p regex Hp Hc Hmatch Hin.
    assert (ignored (NewSlackMessageFormatter opts) (Key a) = true) as Hig.
    { apply ignored_New. by exists p, regex. }
    destruct (IncludeAttrs _); [|by apply elem_of_nil in Hin].
    apply list_elem_of_filter in Hin as [Hno _]. congruence.
Qed.

(** C9: NewSlackMessageFormatter returns a formatter for every list of
    ignore patterns; its patterns are those of the list that compile, in
    order, the others being skipped, and a key is ignored exactly when a
    pattern of the list compiles and matches it. *)
Theorem NewSlackMessageFormatter_skips_bad_patterns opts :
  ignoredAttrPatterns (NewSlackMessageFormatter opts) = compiled (IgnoreAttrs opts) ∧
  (∀ ps1 p ps2 err,
     IgnoreAttrs opts = ps1 ++ p :: ps2 → regexp_Compile p = inr err →
     ignoredAttrPatterns (NewSlackMessageFormatter opts) = compiled (ps1 ++ ps2)) ∧
  (∀ key,
     ignored (NewSlackMessageFormatter opts) key = true ↔
     ∃ p regex, p ∈ IgnoreAttrs opts ∧ regexp_Compile p = inl regex
                ∧ MatchString regex key = true).
Proof.
  split; [apply IgnoreAttrs_New|]. split; [|apply ignored_New].
  intros ps1 p ps2 err Hps Hc. rewrite (proj2 (IgnoreAttrs_New opts)), Hps.
  unfold compiled. rewrite !omap_app. simpl. by rewrite Hc.
Qed.

End WithImports.
End FormatterFacts.

(** * Properties of slices *)

Module SliceFacts.
Import Slice.

Lemma wf_empty {A} (m : arrays A) : wf m Slice.empty.
Proof. unfold wf. simpl. lia. Qed.

Lemma growloop_ge fuel newcap newLen :
  (0 < newcap → newLen ≤ newcap + 192 * fuel → newLen ≤ growloop fuel newcap newLen)%nat.
Proof.
  revert newcap. induction fuel as [|fuel IH]; intros newcap Hpos Hle; cbn [growloop].
  - lia.
  - case_bool_decide as Hc; [|lia].
    assert (192 ≤ (newcap + 3 * 256) / 4)%nat as Hstep
      by (apply Nat.div_le_lower_bound; lia).
    apply IH; [lia|]. revert Hstep. generalize ((newcap + 3 * 256) / 4)%nat. lia.
Qed.

Lemma nextslicecap_ge newLen oldCap : (newLen ≤ nextslicecap newLen oldCap)%nat.
Proof.
  unfold nextslicecap. repeat case_bool_decide; try lia.
  apply growloop_ge; lia.
Qed.

Section Append.
Context {A : Type} (zero : A).
Implicit Types (m : arrays A) (s : slice) (xs : list A).

(** The cell update of an append in place never shortens the array. *)
Lemma length_written (arr xs : list A) (n : nat) :
  (length arr ≤ length (take n arr ++ xs ++ drop (n + length xs) arr))%nat.
Proof. rewrite !length_app, length_take, length_drop. lia. Qed.

Lemma length_lookup_append m s xs p :
  (length (default [] (m !! p))
   ≤ length (default [] ((append zero m s xs).1 !! p)))%nat.
Proof.
  unfold append. case_bool_decide as Hfit; cbn [fst snd ptr len cap].
  - destruct (decide (p = ptr s)) as [->|Hne].
    + rewrite list_lookup_alter_eq. destruct (m !! ptr s) as [arr|]; simpl; [|lia].
      apply length_written.
    + by rewrite list_lookup_alter_ne.
  - destruct (m !! p) as [arr|] eqn:Hp; simpl; [|lia].
    by rewrite (lookup_app_l_Some _ _ _ _ Hp).
Qed.

(** Appending to one slice keeps every slice well formed. *)
Lemma wf_append_other m s xs s' : wf m s' → wf (append zero m s xs).1 s'.
Proof.
  unfold wf. intros [Hlen Hcap]. split; [done|].
  pose proof (length_lookup_append m s xs (ptr s')). lia.
Qed.

(** The slice append returns is well formed. *)
Lemma wf_append_new m s xs : wf m s → wf (append zero m s xs).1 (append zero m s xs).2.
Proof.
  intros Hwf. pose proof (wf_append_other m s xs s Hwf) as Hwf'.
  destruct Hwf as [Hlen Hcap]. revert Hwf'.
  unfold append, wf. case_bool_decide as Hfit; cbn [fst snd ptr len cap].
  - lia.
  - intros _. rewrite lookup_app_r, Nat.sub_diag by lia. simpl.
    unfold elems. rewrite !length_app, length_take, length_replicate.
    pose proof (nextslicecap_ge (len s + length xs) (cap s)). lia.
Qed.

(** The slice append returns shows the old elements, then the new ones. *)
Lemma elems_append m s xs :
  wf m s → elems (append zero m s xs).1 (append zero m s xs).2 = elems m s ++ xs.
Proof.
  intros [Hlen Hcap]. unfold append, elems. case_bool_decide as Hfit; cbn [fst snd ptr len cap].
  - rewrite list_lookup_alter_eq. destruct (m !! ptr s) as [arr|] eqn:Harr; simpl in *.
    + rewrite app_assoc, take_app_length'; [done|].
      rewrite length_app, length_take. lia.
    + assert (xs = []) as -> by (destruct xs; simpl in *; [done|lia]).
      by rewrite !take_nil.
  - rewrite lookup_app_r, Nat.sub_diag by lia. simpl.
    rewrite app_assoc, take_app_length'; [done|].
    rewrite length_app, length_take. lia.
Qed.

(** The slice that was appended to still shows what it showed. *)
Lemma elems_append_receiver m s xs :
  wf m s → elems (append zero m s xs).1 s = elems m s.
Proof.
  intros [Hlen Hcap]. unfold append, elems. case_bool_decide as Hfit; cbn [fst snd ptr len cap].
  - rewrite list_lookup_alter_eq. destruct (m !! ptr s) as [arr|] eqn:Harr; simpl in *; [|done].
    rewrite take_app_le by (rewrite length_take; lia).
    rewrite take_take. f_equal. lia.
  - destruct (m !! ptr s) as [arr|] eqn:Harr; simpl in *.
    + by rewrite (lookup_app_l_Some _ _ _ _ Harr).
    + assert (len s = 0)%nat as -> by lia. by rewrite !take_0.
Qed.

(** A slice over another array is not touched. *)
Lemma elems_append_ne m s xs s' :
  wf m s' → ptr s' ≠ ptr s → elems (append zero m s xs).1 s' = elems m s'.
Proof.
  intros [Hlen Hcap] Hne. unfold append, elems. case_bool_decide as Hfit; cbn [fst snd ptr len cap].
  - by rewrite list_lookup_alter_ne.
  - destruct (m !! ptr s') as [arr|] eqn:Harr; simpl in *.
    + by rewrite (lookup_app_l_Some _ _ _ _ Harr).
    + assert (len s' = 0)%nat as -> by lia. by rewrite !take_0.
Qed.

End Append.
End SliceFacts.

(** * Properties of the handler *)

Module HandlerFacts.
Import Slice SliceFacts Handler.
Section WithImports.
Context `{Imports}.

Lemma store_wf_empty : store_wf emptyStore.
Proof. split; done. Qed.

(** A handler whose slices are well formed joins the store. *)
Lemma store_wf_new st h :
  store_wf st →
  wf (attrArrays st) (attrs h) → wf (groupArrays st) (groups h) →
  wf (futureArrays st) (futures h) →
  store_wf (new h st).2.
Proof.
  intros [Ha Hg Hf Ht Hc] Hha Hhg Hhf. unfold new. split; simpl.
  - intros hp h' [Hin|[_ Hin]]%lookup_app_Some; [by eapply Ha|].
    apply list_lookup_singleton_Some in Hin as [_ <-]. done.
  - intros hp h' [Hin|[_ Hin]]%lookup_app_Some; [by eapply Hg|].
    apply list_lookup_singleton_Some in Hin as [_ <-]. done.
  - intros hp h' [Hin|[_ Hin]]%lookup_app_Some; [by eapply Hf|].
    apply list_lookup_singleton_Some in Hin as [_ <-]. done.
  - intros id hp ctx r Hid. rewrite length_app. specialize (Ht _ _ _ _ Hid). lia.
  - exact Hc.
Qed.

(** WithAttrs in one equation: what is appended depends on the active
    group, which the new handler keeps. *)
Lemma WithAttrs_unfold h attrs_ st :
  WithAttrs h attrs_ st =
    let xs := if decide (activeGroup h = "") then attrs_
              else [Group (activeGroup h) attrs_] in
    let r := append zeroAttr (attrArrays st) (attrs h) xs in
    new (MkHandler (activeGroup h) r.2 (futures h) (groups h) (options h))
        (set_attrArrays r.1 st).
Proof.
  unfold WithAttrs. destruct (decide (activeGroup h = "")) as [Heq|Hne]; simpl.
  - destruct (append _ _ _ _) as [m s]. by rewrite Heq.
  - by destruct (append _ _ _ _) as [m s].
Qed.

Lemma WithGroup_unfold h name st :
  name ≠ "" →
  WithGroup h name st =
    let r := append "" (groupArrays st) (groups h) [name] in
    new (MkHandler name (attrs h) (futures h) r.2 (options h)) (set_groupArrays r.1 st).
Proof.
  intros Hne. unfold WithGroup. rewrite decide_True by done. simpl.
  by destruct (append _ _ _ _) as [m s].
Qed.

Lemma store_wf_WithAttrs st hp h attrs_ :
  store_wf st → handlers st !! hp = Some h → store_wf (WithAttrs h attrs_ st).2.
Proof.
  intros Hwf Hh. rewrite WithAttrs_unfold. cbv zeta.
  destruct Hwf as [Ha Hg Hf Ht Hc]. apply store_wf_new; simpl.
  - split; simpl; try done. intros hp' h' Hh'. apply wf_append_other. by eapply Ha.
  - apply wf_append_new. by eapply Ha.
  - by eapply Hg.
  - by eapply Hf.
Qed.

Lemma store_wf_WithGroup st hp h name :
  store_wf st → handlers st !! hp = Some h → store_wf (WithGroup h name st).2.
Proof.
  intros Hwf Hh. destruct (decide (name = "")) as [->|Hne].
  - unfold WithGroup. simpl. destruct Hwf as [Ha Hg Hf Ht Hc].
    apply store_wf_new; simpl; eauto using MkStoreWf.
  - rewrite WithGroup_unfold by done. cbv zeta.
    destruct Hwf as [Ha Hg Hf Ht Hc]. apply store_wf_new; simpl.
    + split; simpl; try done. intros hp' h' Hh'. apply wf_append_other. by eapply Hg.
    + by eapply Ha.
    + apply wf_append_new. by eapply Hg.
    + by eapply Hf.
Qed.

Lemma store_wf_NewSlackHandler st opts :
  store_wf st → store_wf (NewSlackHandler opts st).2.
Proof.
  intros Hwf. unfold NewSlackHandler. destruct (decide _); [done|].
  apply store_wf_new; simpl; auto using wf_empty.
Qed.

(** The cells of the arrays after an append: old cells, appended values,
    zero values. *)
Lemma Forall_cells_append {A} (P : A → Prop) (zero : A) (m : list (list A)) s xs :
  Forall (Forall P) m → Forall P xs → P zero →
  Forall (Forall P) (append zero m s xs).1.
Proof.
  intros Hm Hxs Hz. unfold append. case_bool_decide; cbn [fst].
  - apply Forall_alter; [done|]. intros arr _ Harr.
    repeat apply Forall_app_2; auto using Forall_take, Forall_drop.
  - apply Forall_app_2; [done|]. constructor; [|done].
    repeat apply Forall_app_2; auto using Forall_replicate.
    unfold elems. apply Forall_take.
    destruct (m !! ptr s) as [arr|] eqn:Harr; simpl; [|done].
    by eapply Forall_lookup_1.
Qed.

Lemma store_wf_Handle st hp ctx r res st' :
  store_wf st → Handle hp ctx r st = Some (res, st') → store_wf st'.
Proof.
  intros Hwf. unfold Handle. destruct (handlers st !! hp) as [h|] eqn:Hh; [|done].
  simpl. destruct (EnableAsync (options h)); simpl; [|by intros [= _ <-]].
  destruct (append _ _ _ _) as [m s] eqn:Happ. intros [= _ <-].
  destruct Hwf as [Ha Hg Hf Ht Hc].
  assert (m = (append None (futureArrays st) (futures h) [Some (length (tasks st))]).1)
    as Hm by (simpl in Happ; by rewrite Happ).
  assert (s = (append None (futureArrays st) (futures h) [Some (length (tasks st))]).2)
    as Hs by (simpl in Happ; by rewrite Happ).
  split; simpl.
  - intros hp' h' [(_ & <- & _)|[_ Hh']]%list_lookup_insert_Some; simpl; eauto.
  - intros hp' h' [(_ & <- & _)|[_ Hh']]%list_lookup_insert_Some; simpl; eauto.
  - intros hp' h' [(_ & <- & _)|[_ Hh']]%list_lookup_insert_Some; subst m s; simpl.
    + apply wf_append_new. eauto.
    + apply wf_append_other. eauto.
  - rewrite length_insert. intros id hp' ctx' r' [Hid|[_ Hid]]%lookup_app_Some.
    + by eapply Ht.
    + apply list_lookup_singleton_Some in Hid as [_ [= <- _ _]]. by eapply lookup_lt_Some.
  - subst m. apply Forall_cells_append.
    + eapply Forall_impl; [exact Hc|]. intros arr Harr.
      eapply Forall_impl; [exact Harr|]. intros f Hok id ->. unfold set_tasks; simpl. rewrite length_app.
      specialize (Hok id eq_refl). lia.
    + constructor; [|done]. intros id [= <-]. simpl. rewrite length_app. simpl. lia.
    + by intros id.
Qed.

Lemma store_wf_runTask st id : store_wf st → store_wf (runTask id st).
Proof.
  intros Hwf. unfold runTask. destruct (tasks st !! id) as [[hp ctx r|res]|] eqn:Hid; try done.
  destruct (handlers st !! hp) as [h|]; [|done].
  destruct Hwf as [Ha Hg Hf Ht Hc]. split; simpl; try done.
  - intros id' hp' ctx' r' [(_ & [=] & _)|[_ Hid']]%list_lookup_insert_Some.
    by eapply Ht.
  - eapply Forall_impl; [exact Hc|]. intros arr Harr.
    eapply Forall_impl; [exact Harr|]. intros f Hok id' ->. simpl. rewrite length_insert. by apply Hok.
Qed.

(** *** Construction *)

(** C8: NewSlackHandler returns an error and no handler exactly when the
    webhook URL is empty, and leaves the store alone then; for every other
    URL it returns a handler and no error. *)
Theorem NewSlackHandler_requires_url opts st :
  match NewSlackHandler opts st with
  | ((None, Some err), st') => WebhookURL opts = "" ∧ st' = st
  | ((Some hp, None), st') => WebhookURL opts ≠ "" ∧ is_Some (handlers st' !! hp)
  | _ => False
  end.
Proof.
  unfold NewSlackHandler. destruct (decide (WebhookURL opts = "")) as [Hurl|Hurl].
  - done.
  - simpl. split; [done|]. rewrite lookup_app_r, Nat.sub_diag by lia. by eexists.
Qed.

(** *** Derived handlers *)

(** The handler [new] stores is found at the address it returns, and the
    handlers before it stay. *)
Lemma lookup_new st h : handlers (new h st).2 !! (new h st).1 = Some h.
Proof. unfold new. simpl. by rewrite lookup_app_r, Nat.sub_diag by lia. Qed.

Lemma lookup_new_old st h hp h' :
  handlers st !! hp = Some h' → handlers (new h st).2 !! hp = Some h'.
Proof. unfold new. simpl. apply lookup_app_l_Some. Qed.

(** WithGroup with a name: the new handler has the name as its active
    group and shows the receiver's attributes. *)
Lemma WithGroup_named st hp h name :
  store_wf st → handlers st !! hp = Some h → name ≠ "" →
  ∃ hp1 st1 h1,
    WithGroup h name st = (hp1, st1) ∧ handlers st1 !! hp1 = Some h1 ∧
    store_wf st1 ∧ activeGroup h1 = name ∧ attrsOf st1 h1 = attrsOf st h ∧
    groupsOf st1 h1 = groupsOf st h ++ [name].
Proof.
  intros Hwf Hh Hne. pose proof (store_wf_WithGroup st hp h name Hwf Hh) as Hwf1.
  rewrite WithGroup_unfold in * by done. cbv zeta in *.
  eexists _, _, _. split; [reflexivity|]. split; [apply lookup_new|].
  split; [exact Hwf1|]. split; [done|]. split; [done|].
  unfold groupsOf. simpl. apply elems_append. by eapply wf_groups.
Qed.

(** WithGroup with the empty name: the new handler has no active group. *)
Lemma WithGroup_unnamed st hp h :
  store_wf st → handlers st !! hp = Some h →
  ∃ hp1 st1 h1,
    WithGroup h "" st = (hp1, st1) ∧ handlers st1 !! hp1 = Some h1 ∧
    store_wf st1 ∧ activeGroup h1 = "" ∧ attrsOf st1 h1 = attrsOf st h.
Proof.
  intros Hwf Hh. pose proof (store_wf_WithGroup st hp h "" Hwf Hh) as Hwf1.
  unfold WithGroup in *. simpl in *.
  eexists _, _, _. split; [reflexivity|]. split; [apply lookup_new|]. done.
Qed.







(** Deriving a handler leaves the receiver as it was: it stays in the
    store and shows the same attributes and groups. *)
Lemma WithAttrs_keeps_receiver st hp h attrs_ :
  store_wf st → handlers st !! hp = Some h →
  handlers (WithAttrs h attrs_ st).2 !! hp = Some h ∧
  attrsOf (WithAttrs h attrs_ st).2 h = attrsOf st h ∧
  groupsOf (WithAttrs h attrs_ st).2 h = groupsOf st h.
Proof.
  intros Hwf Hh. rewrite WithAttrs_unfold. cbv zeta. split; [|split].
  - by apply lookup_new_old.
  - unfold attrsOf. simpl. apply elems_append_receiver. by eapply wf_attrs.
  - done.
Qed.

Lemma WithGroup_keeps_receiver st hp h name :
  store_wf st → handlers st !! hp = Some h →
  handlers (WithGroup h name st).2 !! hp = Some h ∧
  attrsOf (WithGroup h name st).2 h = attrsOf st h ∧
  groupsOf (WithGroup h name st).2 h = groupsOf st h.
Proof.
  intros Hwf Hh. destruct (decide (name = "")) as [->|Hne].
  - unfold WithGroup. simpl. split; [by apply lookup_new_old|done].
  - rewrite WithGroup_unfold by done. cbv zeta. split; [|split].
    + by apply lookup_new_old.
    + done.
    + unfold groupsOf. simpl. apply elems_append_receiver. by eapply wf_groups.
Qed.

(** *** Handle *)

(** The futures a handler shows name tasks of the store. *)
Lemma futuresOf_ok st hp h :
  store_wf st → handlers st !! hp = Some h → Forall (futureOk st) (futuresOf st h).
Proof.
  intros Hwf Hh. unfold futuresOf, elems. apply Forall_take.
  destruct (futureArrays st !! ptr (futures h)) as [arr|] eqn:Harr; simpl; [|done].
  eapply Forall_lookup_1; [apply (wf_cells _ Hwf)|exact Harr].
Qed.

(** C6: with EnableAsync, Handle returns nil without running the dispatch:
    the task it starts is still running when it returns, and its future is
    the new last entry of the handler's futures. Without EnableAsync,
    Handle returns what handle returns, which is the formatter's error when
    there is one and the error of the post otherwise; the store is as
    before. *)
Theorem Handle_async_or_sync st hp h ctx r :
  store_wf st → handlers st !! hp = Some h →
  if EnableAsync (options h) then
    ∃ st' h',
      Handle hp ctx r st = Some (None, st') ∧
      handlers st' !! hp = Some h' ∧
      futuresOf st' h' = futuresOf st h ++ [Some (length (tasks st))] ∧
      tasks st' =
        tasks st ++ [Running hp (WithValue SlackHandlerOptions "SlackHandlerOptionsContext"
                                   (options h) ctx) r]
  else
    ∃ message err,
      match RecordFormatter (options h) with
      | Some FormatRecord =>
          FormatRecord (WithValue SlackHandlerOptions "SlackHandlerOptionsContext"
                          (options h) ctx)
            (r_Time r) (r_Level r) (r_PC r) (r_Message r)
            (slogx_ConsolidateAttrs (attrsOf st h) (activeGroup h) r)
      | None =>
          (Formatter.FormatRecord Formatter.DefaultSlackMessageFormatter
             (WithValue SlackHandlerOptions "SlackHandlerOptionsContext" (options h) ctx)
             (r_Time r) (r_Level r) (r_PC r) (r_Message r)
             (slogx_ConsolidateAttrs (attrsOf st h) (activeGroup h) r)).1
      end = (message, err) ∧
      Handle hp ctx r st =
        Some (match err with
              | Some e => Some e
              | None => slack_PostWebhookCustomHTTP (WebhookURL (options h))
                          (HTTPClient_ (options h)) message
              end, st).
Proof.
  intros Hwf Hh. unfold Handle. rewrite Hh. simpl.
  destruct (EnableAsync (options h)) eqn:Hasync; simpl.
  - destruct (append _ _ _ _) as [m s] eqn:Happ.
    eexists _, _. split; [reflexivity|]. simpl. split.
    + apply list_lookup_insert_eq. by eapply lookup_lt_Some.
    + split; [|done]. unfold futuresOf. simpl.
      pose proof (elems_append None (futureArrays st) (futures h)
                    [Some (length (tasks st))] (wf_futures _ Hwf _ _ Hh)) as He.
      simpl in Happ. rewrite Happ in He. exact He.
  - unfold handle.
    destruct (match RecordFormatter (options h) with Some _ => _ | None => _ end)
      as [message err].
    by exists message, err.
Qed.

(** *** Shutdown *)

Lemma runTask_finishes st f :
  store_wf st → (f < length (tasks st))%nat →
  ∃ res, tasks (runTask f st) !! f = Some (Finished res).
Proof.
  intros Hwf Hf. unfold runTask.
  destruct (lookup_lt_is_Some_2 _ _ Hf) as [[hp ctx r|res] Ht]; rewrite Ht.
  - pose proof (wf_tasks _ Hwf _ _ _ _ Ht) as Hhp.
    destruct (lookup_lt_is_Some_2 _ _ Hhp) as [h Hh]. rewrite Hh. simpl.
    eexists. by apply list_lookup_insert_eq.
  - by eexists.
Qed.

Lemma runTask_keeps_finished st f id res :
  tasks st !! f = Some (Finished res) → tasks (runTask id st) !! f = Some (Finished res).
Proof.
  intros Hf. unfold runTask.
  destruct (tasks st !! id) as [[hp ctx r|res']|] eqn:Hid; try done.
  destruct (handlers st !! hp) as [h|]; [|done]. simpl.
  destruct (decide (id = f)) as [->|Hne]; [congruence|].
  by rewrite list_lookup_insert_ne.
Qed.

Lemma length_tasks_runTask st id : length (tasks (runTask id st)) = length (tasks st).
Proof.
  unfold runTask. destruct (tasks st !! id) as [[hp ctx r|res']|]; try done.
  destruct (handlers st !! hp) as [h|]; [|done]. simpl. apply length_insert.
Qed.

Lemma awaitAll_keeps_finished fs st f res :
  tasks st !! f = Some (Finished res) → tasks (awaitAll fs st) !! f = Some (Finished res).
Proof.
  revert st. induction fs as [|[id|] fs IH]; intros st Hf; simpl; auto.
  apply IH. unfold Await. by apply runTask_keeps_finished.
Qed.

Lemma awaitAll_finishes fs st f :
  store_wf st → Forall (futureOk st) fs → Some f ∈ fs →
  ∃ res, tasks (awaitAll fs st) !! f = Some (Finished res).
Proof.
  revert st. induction fs as [|[id|] fs IH]; intros st Hwf Hok Hin.
  - by apply elem_of_nil in Hin.
  - apply Forall_cons in Hok as [Hid Hok]. simpl. unfold Await.
    assert (Forall (futureOk (runTask id st)) fs) as Hok'.
    { eapply Forall_impl; [exact Hok|]. intros f' Hf' id' ->.
      rewrite length_tasks_runTask. by apply Hf'. }
    apply elem_of_cons in Hin as [[= ->]|Hin].
    + destruct (runTask_finishes st id Hwf (Hid id eq_refl)) as [res Hres].
      exists res. by apply awaitAll_keeps_finished.
    + apply IH; auto using store_wf_runTask.
  - apply Forall_cons in Hok as [_ Hok]. simpl.
    apply elem_of_cons in Hin as [[=]|Hin]. by apply IH.
Qed.

(** C7: when Shutdown returns, every future the handler held has
    finished, and the value of continueOnError makes no difference to the
    result or to the store. *)
Theorem Shutdown_awaits_all st hp h continueOnError f :
  store_wf st → handlers st !! hp = Some h → Some f ∈ futuresOf st h →
  (∃ res, tasks (Shutdown h continueOnError st).2 !! f = Some (Finished res)) ∧
  Shutdown h continueOnError st = Shutdown h (negb continueOnError) st.
Proof.
  intros Hwf Hh Hin. split; [|done]. unfold Shutdown. simpl.
  apply awaitAll_finishes; [done| |done]. by eapply futuresOf_ok.
Qed.

(** C10: Shutdown returns nil, whatever the handler, the store, the value
    of continueOnError and the results of the tasks it awaited. *)
Theorem Shutdown_returns_nil h continueOnError st :
  (Shutdown h continueOnError st).1 = None.
Proof. reflexivity. Qed.

End WithImports.
End HandlerFacts.

(** * The properties on the sample runs *)

Module Examples.
Import Slice SliceFacts Formatter FormatterFacts Handler HandlerFacts Sample Scenario.

(** The formatter keeps the pattern that compiles and skips "(". *)
Example aFormatter_patterns : ignoredAttrPatterns aFormatter = ["secret"].
Proof. reflexivity. Qed.

Lemma FormatRecord_block_count_witness :
  ∃ m, (FormatRecord aFormatter tt 0 0 0 "hello" someAttrs).1 = (Some m, None)
       ∧ length (BlockSet m) = 8%nat.
Proof.
  eexists. split.
  - vm_compute. reflexivity.
  - etransitivity.
    + apply (FormatRecord_block_count aFormatter tt 0 0 0 "hello" someAttrs).
      vm_compute. reflexivity.
    + vm_compute. reflexivity.
Defined.


Lemma ignored_attr_has_no_block_witness :
  ∃ m, (FormatRecord (NewSlackMessageFormatter formatterOptions) tt 0 0 0 "hello" someAttrs).1
         = (Some m, None)
       ∧ ∃ head shown elems,
           BlockSet m = head ++ map (λ e, NewContextBlock "" [e]) elems
           ∧ Forall2 (λ a e,
               (attrToElement (NewSlackMessageFormatter formatterOptions)
                  (AddToContext (Formatter.options (NewSlackMessageFormatter formatterOptions))
                     tt)
                  0 (Key a) (Val a)).2 = inr (Some e)) shown elems
           ∧ MkAttr "g.secret" (StringValue "x") ∉ shown.
Proof.
  eexists. split.
  - vm_compute. reflexivity.
  - destruct (ignored_attr_has_no_block formatterOptions tt 0 0 0 "hello" someAttrs _
                ltac:(vm_compute; reflexivity))
      as (head & shown & elems & Hm & _ & _ & Hall & Hno).
    exists head, shown, elems. split; [exact Hm|]. split; [exact Hall|].
    apply (Hno (MkAttr "g.secret" (StringValue "x")) "secret" "secret").
    + apply list_elem_of_In. left. reflexivity.
    + reflexivity.
    + reflexivity.
Defined.

(** The stores of the sample runs are stores the program builds. *)
Lemma store_wf_started opts : store_wf (started opts).
Proof. apply store_wf_NewSlackHandler, store_wf_empty. Qed.

Lemma store_wf_handled st : store_wf st → store_wf (handled st).
Proof.
  intros Hwf. unfold handled.
  destruct (Handle _ _ _ _) as [[res st']|] eqn:Hh; [|done].
  by eapply store_wf_Handle.
Qed.


(** With one open group the two agree. *)
Example one_group_nested : nestedPerOpenGroup ["g1"] "k" (StringValue "v").
Proof. reflexivity. Qed.


(** C3 at the failing input: the child A of [base] shows [a b c x] when it
    is built and [a b c y] once its sibling B has been derived from
    [base]. *)
Theorem WithAttrs_overwrites_sibling :
  twoChildren = Some ([attr "a"; attr "b"; attr "c"; attr "x"],
                      [attr "a"; attr "b"; attr "c"; attr "y"]).
Proof. vm_compute. reflexivity. Qed.

(** The open groups of a sibling are overwritten in the same way. *)
Example WithGroup_overwrites_sibling :
  twoChildGroups = Some (["a"; "b"; "c"; "x"], ["a"; "b"; "c"; "y"]).
Proof. vm_compute. reflexivity. Qed.

Lemma Handle_async_or_sync_witness :
  store_wf (started asyncOptions)
  ∧ ∃ h, handlers (started asyncOptions) !! 0%nat = Some h
  ∧ ∃ st' h',
      Handle 0 tt aRecord (started asyncOptions) = Some (None, st')
      ∧ handlers st' !! 0%nat = Some h'
      ∧ futuresOf st' h' = [Some 0%nat].
Proof.
  split; [apply store_wf_started|]. eexists. split; [reflexivity|].
  destruct (Handle_async_or_sync (started asyncOptions) 0%nat _ tt aRecord
              (store_wf_started asyncOptions) eq_refl)
    as (st' & h' & Hh & Hl & Hf & _).
  exists st', h'. split; [exact Hh|]. split; [exact Hl|]. exact Hf.
Defined.

(** Without EnableAsync the error of the post comes back. *)
Example Handle_sync_error :
  (Handle 0 tt aRecord (started (MkHandlerOptions false None None None "https://hooks.invalid/")))
    = Some (Some "no such host",
            started (MkHandlerOptions false None None None "https://hooks.invalid/")).
Proof. vm_compute. reflexivity. Qed.

Lemma Shutdown_awaits_all_witness :
  store_wf (afterThreeHandles asyncOptions)
  ∧ ∃ h, handlers (afterThreeHandles asyncOptions) !! 0%nat = Some h
  ∧ Some 2%nat ∈ futuresOf (afterThreeHandles asyncOptions) h
  ∧ ∃ res, tasks (Shutdown h true (afterThreeHandles asyncOptions)).2 !! 2%nat
           = Some (Finished res).
Proof.
  assert (store_wf (afterThreeHandles asyncOptions)) as Hwf
    by (do 3 apply store_wf_handled; apply store_wf_started).
  split; [exact Hwf|]. eexists. split; [reflexivity|].
  assert (Some 2%nat ∈ futuresOf (afterThreeHandles asyncOptions)
            (MkHandler "" Slice.empty (MkSlice 2 3 4) Slice.empty
               (MkHandlerOptions true (Some tt) (Some 0) None "https://hooks.example/T000")))
    as Hin by (apply list_elem_of_In; vm_compute; auto).
  split; [exact Hin|].
  exact (proj1 (Shutdown_awaits_all (afterThreeHandles asyncOptions) 0%nat _ true 2%nat
                  Hwf eq_refl Hin)).
Defined.

(** Shutdown returns nil also when every awaited post failed. *)
Example Shutdown_after_failures :
  ∃ h, handlers (afterThreeHandles asyncFailingOptions) !! 0%nat = Some h
  ∧ (Shutdown h true (afterThreeHandles asyncFailingOptions)).1 = None
  ∧ tasks (Shutdown h true (afterThreeHandles asyncFailingOptions)).2
    = [Finished (Some "no such host"); Finished (Some "no such host");
       Finished (Some "no such host")].
Proof. eexists. split; [reflexivity|]. split; vm_compute; reflexivity. Qed.

End Examples.

(** * Further properties of the formatter *)

Module FormatterMore.
Import Formatter FormatterParts.
Section WithImports.
Context `{Imports}.

(** *** NewSlackMessageFormatter *)

(** NewSlackMessageFormatter leaves a formatter whose time prefix is never
    empty and whose source prefix is not empty when the source is
    included; a prefix that was given is kept, and so is every other
    option. *)
Theorem NewSlackMessageFormatter_prefixes opts :
  TimePrefix (options (NewSlackMessageFormatter opts)) ≠ ""
  ∧ (TimePrefix opts ≠ "" →
     TimePrefix (options (NewSlackMessageFormatter opts)) = TimePrefix opts)
  ∧ (IncludeSource opts = true →
     SourcePrefix (options (NewSlackMessageFormatter opts)) ≠ "")
  ∧ (SourcePrefix opts ≠ "" ∨ IncludeSource opts = false →
     SourcePrefix (options (NewSlackMessageFormatter opts)) = SourcePrefix opts)
  ∧ set_SourcePrefix (SourcePrefix opts)
      (set_TimePrefix (TimePrefix opts) (options (NewSlackMessageFormatter opts)))
    = opts.
Proof.
  unfold NewSlackMessageFormatter. cbn [options].
  destruct opts as [icon name af ig ia isrc lf mf sa sp sf spf tp tf].
  unfold set_TimePrefix, set_SourcePrefix. cbn.
  destruct (decide (tp = "")) as [->|Htp]; cbn;
    destruct isrc; cbn; try case_bool_decide; cbn;
    repeat split; try done; try (intros [?|?]; done); by intros [? | [=]].
Qed.

(** *** The split of a key *)

Lemma substring_0_length s : String.substring 0 (String.length s) s = s.
Proof. induction s as [|c s IH]; simpl; [done|by rewrite IH]. Qed.

Lemma LastIndexDot_split s i :
  LastIndexDot s = Some i →
  s = String.substring 0 i s +:+ "." +:+
        String.substring (i + 1) (String.length s - (i + 1)) s
  ∧ LastIndexDot (String.substring (i + 1) (String.length s - (i + 1)) s) = None.
Proof.
  revert i. induction s as [|c s IH]; intros i; simpl; [done|].
  destruct (LastIndexDot s) as [j|] eqn:Hj.
  - intros [= <-]. destruct (IH j eq_refl) as [Hs Hleaf]. simpl.
    split; [|done]. rewrite Hs at 1. reflexivity.
  - destruct (Ascii.eqb c (Ascii.ascii_of_nat 46)) eqn:Hc; [|done].
    intros [= <-]. apply Ascii.eqb_eq in Hc as ->. simpl.
    rewrite Nat.sub_0_r, substring_0_length. done.
Qed.

(** attrToElement for a key that is not ignored, by the formatter that
    applies. *)
Lemma attrToElement_unfold f ctx level key v :
  ignored f key = false →
  attrToElement f ctx level key v =
    match SpecificAttrFormatter (options f) !! key with
    | Some (Some fn) =>
        finish (HookSpecificAttr key)
          (fn ctx level (splitKey key).1 (splitKey key).2 (Resolve v))
    | _ =>
        match AttrFormatter (options f) with
        | Some fn =>
            finish (HookAttr key)
              (fn ctx level (splitKey key).1 (splitKey key).2 (Resolve v))
        | None =>
            text ← valueText key (Resolve v); mret (Some (TextBlockObject text))
        end
    end.
Proof.
  intros Hig. unfold attrToElement, splitKey, finish. rewrite Hig.
  destruct (LastIndexDot key) as [i|]; cbn [fst snd];
    destruct (SpecificAttrFormatter (options f) !! key) as [[fn|]|];
    try reflexivity; destruct (AttrFormatter (options f)); try reflexivity;
    unfold mbind, mret, Run_bind, Run_ret, bind, ret; cbn;
    destruct (valueText key (Resolve v)) as [tr [e|text]]; reflexivity.
Qed.

(** A formatter called for a key gets the key in two parts, the group and
    the leaf: the leaf has no "."; a key without "." is the leaf of the
    empty group, and any other key is the group, a "." and the leaf. The
    formatter called is the one registered for the key when there is one
    that is not nil, the generic one otherwise. *)
Theorem formatter_gets_split_key f ctx level key v :
  ignored f key = false →
  ∃ group leaf,
    LastIndexDot leaf = None
    ∧ (LastIndexDot key = None ∧ group = "" ∧ leaf = key
       ∨ key = group +:+ "." +:+ leaf)
    ∧ attrToElement f ctx level key v =
        match SpecificAttrFormatter (options f) !! key with
        | Some (Some fn) =>
            finish (HookSpecificAttr key) (fn ctx level group leaf (Resolve v))
        | _ =>
            match AttrFormatter (options f) with
            | Some fn => finish (HookAttr key) (fn ctx level group leaf (Resolve v))
            | None => text ← valueText key (Resolve v); mret (Some (TextBlockObject text))
            end
        end.
Proof.
  intros Hig. exists (splitKey key).1, (splitKey key).2.
  split; [|split; [|by apply attrToElement_unfold]].
  - unfold splitKey. destruct (LastIndexDot key) as [i|] eqn:Hi; cbn [snd]; [|done].
    by apply LastIndexDot_split.
  - unfold splitKey. destruct (LastIndexDot key) as [i|] eqn:Hi; cbn [fst snd].
    + right. by apply LastIndexDot_split.
    + by left.
Qed.

(** *** The switch over the kind *)

Lemma valueText_cases key v :
  match valueText key v with
  | (tr, inr text) => tr = [] ∧ ∃ body, text = markup key body
  | (tr, inl e) => tr = [] ∧ marshalFails v e
  end.
Proof.
  destruct v; simpl; try (split; [done|by eexists]);
    destruct (any_MarshalText a) as [[out [e|]]|] eqn:Ha; simpl;
    (split; [done|]); rewrite ?Ha; by eexists.
Qed.

(** The switch over the kind calls no hook; it gives the key between
    stars, a colon and a text between back quotes, and it fails only when
    the value is an any (or an unresolved LogValuer) whose MarshalText
    fails, with that error. *)
Theorem valueText_markup key v :
  match valueText key v with
  | (tr, inr text) => tr = [] ∧ ∃ body, text = "*" +:+ key +:+ "*: `" +:+ body +:+ "`"
  | (tr, inl e) => tr = [] ∧ marshalFails v e
  end.
Proof. exact (valueText_cases key v). Qed.

Lemma finish_events hook res : (finish hook res).1 = [(hook, res.2)].
Proof.
  unfold finish, mbind, Run_bind, bind, call. destruct res as [[k v] [e|]]; [done|].
  pose proof (valueText_cases k v) as Hv. destruct (valueText k v) as [tr [e|text]];
    destruct Hv as [-> _]; done.
Qed.

Lemma attrToElement_trace f ctx level key v :
  (attrToElement f ctx level key v).1 =
    if ignored f key then []
    else match SpecificAttrFormatter (options f) !! key with
         | Some (Some fn) =>
             [(HookSpecificAttr key,
               (fn ctx level (splitKey key).1 (splitKey key).2 (Resolve v)).2)]
         | _ =>
             match AttrFormatter (options f) with
             | Some fn =>
                 [(HookAttr key,
                   (fn ctx level (splitKey key).1 (splitKey key).2 (Resolve v)).2)]
             | None => []
             end
         end.
Proof.
  destruct (ignored f key) eqn:Hig.
  - unfold attrToElement. by rewrite Hig.
  - rewrite attrToElement_unfold by done.
    destruct (SpecificAttrFormatter (options f) !! key) as [[fn|]|];
      try apply finish_events;
      (destruct (AttrFormatter (options f)); [apply finish_events|]);
      unfold mbind, Run_bind, bind;
      pose proof (valueText_cases key (Resolve v)) as Hv;
      destruct (valueText key (Resolve v)) as [tr [e|text]]; by destruct Hv as [-> _].
Qed.

(** The hook calls of attrToElement: none for an ignored key; otherwise
    the specific formatter of the key alone when there is one that is not
    nil, else the generic formatter alone when there is one, else none. *)
Theorem attrToElement_hooks f ctx level key v :
  (attrToElement f ctx level key v).1 =
    if ignored f key then []
    else match SpecificAttrFormatter (options f) !! key with
         | Some (Some fn) =>
             [(HookSpecificAttr key,
               (fn ctx level (splitKey key).1 (splitKey key).2 (Resolve v)).2)]
         | _ =>
             match AttrFormatter (options f) with
             | Some fn =>
                 [(HookAttr key,
                   (fn ctx level (splitKey key).1 (splitKey key).2 (Resolve v)).2)]
             | None => []
             end
         end.
Proof. exact (attrToElement_trace f ctx level key v). Qed.

Lemma attrToElement_events f ctx level key v h e :
  (h, e) ∈ (attrToElement f ctx level key v).1 → isAttrHook h = true.
Proof.
  rewrite attrToElement_trace. destruct (ignored f key); [by intros ?%elem_of_nil|].
  destruct (SpecificAttrFormatter (options f) !! key) as [[fn|]|];
    try (by intros [= -> _]%list_elem_of_singleton);
    destruct (AttrFormatter (options f));
    try (by intros [= -> _]%list_elem_of_singleton); by intros ?%elem_of_nil.
Qed.

(** *** The attribute loop *)

(** The loop appends to the blocks it is given; its hook calls and its
    error do not depend on them. *)
Lemma attrBlocks_acc f ctx level attrs blockSet :
  attrBlocks f ctx level attrs blockSet =
    ((attrBlocks f ctx level attrs []).1,
     match (attrBlocks f ctx level attrs []).2 with
     | inl e => inl e
     | inr blocks => inr (blockSet ++ blocks)
     end).
Proof.
  revert blockSet. induction attrs as [|attr rest IH]; intros blockSet; simpl.
  - by rewrite app_nil_r.
  - unfold mbind, Run_bind, bind.
    destruct (attrToElement f ctx level (Key attr) (Val attr)) as [tr [e|[el|]]]; [done| |].
    + rewrite (IH (blockSet ++ _)), (IH [_]).
      destruct (attrBlocks f ctx level rest []) as [tr' [e|blocks]]; simpl; [done|].
      by rewrite <- app_assoc.
    + rewrite (IH blockSet).
      by destruct (attrBlocks f ctx level rest []) as [tr' [e|blocks]].
Qed.

(** The attribute loop does on a list what it does on the list without the
    attributes whose key is ignored: the same blocks or error, and the same
    hook calls. *)
Theorem attrBlocks_skips_ignored f ctx level attrs blockSet :
  attrBlocks f ctx level attrs blockSet = attrBlocks f ctx level (kept f attrs) blockSet.
Proof.
  revert blockSet. induction attrs as [|attr rest IH]; intros blockSet; [done|].
  unfold kept. destruct (ignored f (Key attr)) eqn:Hig.
  - rewrite filter_cons_False by (by rewrite Hig). simpl.
    unfold attrToElement. rewrite Hig. unfold mbind, Run_bind, bind, ret. simpl.
    rewrite IH. unfold kept. by destruct (attrBlocks _ _ _ _ _).
  - rewrite filter_cons_True by done. simpl. unfold mbind, Run_bind, bind.
    destruct (attrToElement f ctx level (Key attr) (Val attr)) as [tr [e|[el|]]];
      [done| |]; by rewrite IH.
Qed.

Lemma attrBlocks_cons f ctx level attr rest blockSet :
  attrBlocks f ctx level (attr :: rest) blockSet =
    match attrToElement f ctx level (Key attr) (Val attr) with
    | (tr, inl e) => (tr, inl e)
    | (tr, inr el) =>
        (tr ++ (attrBlocks f ctx level rest []).1,
         match (attrBlocks f ctx level rest []).2 with
         | inl e => inl e
         | inr blocks =>
             inr (blockSet
                  ++ match el with Some el => [NewContextBlock "" [el]] | None => [] end
                  ++ blocks)
         end)
    end.
Proof.
  simpl. unfold mbind, Run_bind, bind.
  destruct (attrToElement f ctx level (Key attr) (Val attr)) as [tr [e|[el|]]]; [done| |].
  - rewrite attrBlocks_acc.
    destruct (attrBlocks f ctx level rest []) as [tr' [e|blocks]]; simpl; [done|].
    by rewrite <- app_assoc.
  - rewrite attrBlocks_acc.
    by destruct (attrBlocks f ctx level rest []) as [tr' [e|blocks]].
Qed.

(** The first attribute that fails ends the loop: when the attributes
    before it give an element or nil, the loop returns its error, and the
    hook calls made are those of the attributes before it and its own; no
    hook is called for an attribute after it. *)
Theorem attrBlocks_first_error f ctx level pre a post blockSet e :
  Forall (λ x, ∃ el, (attrToElement f ctx level (Key x) (Val x)).2 = inr el) pre →
  (attrToElement f ctx level (Key a) (Val a)).2 = inl e →
  (attrBlocks f ctx level (pre ++ a :: post) blockSet).2 = inl e
  ∧ (attrBlocks f ctx level (pre ++ a :: post) blockSet).1
    = attrEvents f ctx level pre ++ (attrToElement f ctx level (Key a) (Val a)).1.
Proof.
  intros Hpre Ha. revert blockSet. unfold attrEvents.
  induction Hpre as [|x pre [el Hx] Hpre IH]; intros blockSet.
  - rewrite app_nil_l, attrBlocks_cons.
    destruct (attrToElement f ctx level (Key a) (Val a)) as [tr [e'|el]]; simpl in *;
      [|done]. split; congruence.
  - rewrite <- app_comm_cons, !attrBlocks_cons.
    destruct (attrToElement f ctx level (Key x) (Val x)) as [tr [e'|el']]; simpl in *;
      [done|].
    destruct (IH []) as [Herr Htr]. rewrite Herr, Htr. split; [done|].
    by rewrite app_assoc.
Qed.

(** The hooks of the attribute loop are attribute hooks. *)
Lemma attrBlocks_events f ctx level attrs blockSet h e :
  (h, e) ∈ (attrBlocks f ctx level attrs blockSet).1 → isAttrHook h = true.
Proof.
  revert blockSet. induction attrs as [|attr rest IH]; intros blockSet.
  - simpl. by intros ?%elem_of_nil.
  - rewrite attrBlocks_cons.
    pose proof (attrToElement_events f ctx level (Key attr) (Val attr) h e) as Hh.
    destruct (attrToElement f ctx level (Key attr) (Val attr)) as [tr [e'|el]];
      simpl in *; [done|].
    intros [Hin|Hin]%elem_of_app; [auto|by eapply IH].
Qed.

(** *** FormatRecord *)

(** formatRecord by the results of the three hooks. *)
Lemma formatRecord_cases f ctx timestamp level pc msg attrs :
  formatRecord f ctx timestamp level pc msg attrs =
    match levelResult f ctx level with
    | (_, Some e) => ([(HookLevel, Some e)], inl e)
    | (lv, None) =>
        match timeResult f ctx level timestamp with
        | (_, Some e) => ([(HookLevel, None); (HookTime, Some e)], inl e)
        | (tm, None) =>
            if IncludeSource (options f) then
              match sourceResult f ctx level pc with
              | (_, Some e) =>
                  ([(HookLevel, None); (HookTime, None); (HookSource, Some e)], inl e)
              | (src, None) =>
                  addAttrs f ctx level attrs
                    [(HookLevel, None); (HookTime, None); (HookSource, None)]
                    (headBlocks (options f) lv tm (Some src) msg)
              end
            else
              addAttrs f ctx level attrs [(HookLevel, None); (HookTime, None)]
                (headBlocks (options f) lv tm None msg)
        end
    end.
Proof.
  unfold formatRecord, levelResult, timeResult, sourceResult, addAttrs, headBlocks,
    timeSourceText, appElements, flattened, mbind, mret, Run_bind, Run_ret, bind, ret, call.
  destruct (match LevelFormatter (options f) with Some _ => _ | None => _ end)
    as [lv [e|]]; [done|].
  destruct (match TimeFormatter (options f) with Some _ => _ | None => _ end)
    as [tm [e|]]; [done|].
  assert (∀ l : list MixedElement,
            (if decide (ApplicationName (options f) ≠ "")
             then (if decide (ApplicationIconURL (options f) ≠ "")
                   then [] ++ [ImageBlockElement (ApplicationIconURL (options f))
                                 (ApplicationName (options f))]
                   else []) ++ [TextBlockObject (ApplicationName (options f))]
             else if decide (ApplicationIconURL (options f) ≠ "")
                  then [] ++ [ImageBlockElement (ApplicationIconURL (options f))
                                (ApplicationName (options f))]
                  else []) ++ l
            = ((if decide (ApplicationIconURL (options f) ≠ "")
                then [ImageBlockElement (ApplicationIconURL (options f))
                        (ApplicationName (options f))]
                else [])
               ++ (if decide (ApplicationName (options f) ≠ "")
                   then [TextBlockObject (ApplicationName (options f))] else [])) ++ l)
    as Happ.
  { intros l. destruct (decide (ApplicationName _ ≠ "")), (decide (ApplicationIconURL _ ≠ ""));
      simpl; by rewrite ?app_nil_r. }
  destruct (IncludeSource (options f)).
  - destruct (match SourceFormatter (options f) with Some _ => _ | None => _ end)
      as [src [e|]]; [done|].
    cbn. rewrite Happ.
    destruct (IncludeAttrs (options f)); [|done].
    destruct (attrBlocks _ _ _ _ _) as [tr [e|blocks]]; cbn; by rewrite ?app_nil_r.
  - cbn. rewrite Happ.
    destruct (IncludeAttrs (options f)); [|done].
    destruct (attrBlocks _ _ _ _ _) as [tr [e|blocks]]; cbn; by rewrite ?app_nil_r.
Qed.

Lemma addAttrs_events f ctx level attrs tr blockSet :
  (addAttrs f ctx level attrs tr blockSet).1 = tr ++ attrsPart f ctx level attrs.
Proof.
  unfold addAttrs, attrsPart, attrEvents. destruct (IncludeAttrs (options f)).
  - rewrite attrBlocks_acc. by destruct (attrBlocks _ _ _ _ []) as [tr' [e|blocks]].
  - by rewrite app_nil_r.
Qed.

Lemma addAttrs_blocks f ctx level attrs tr blockSet tr' m :
  addAttrs f ctx level attrs tr blockSet = (tr', inr m) →
  ∃ blocks, BlockSet m = blockSet ++ blocks.
Proof.
  unfold addAttrs. destruct (IncludeAttrs (options f)).
  - rewrite attrBlocks_acc. destruct (attrBlocks _ _ _ _ []) as [tr'' [e|blocks]]; simpl;
      [done|]. intros [= _ <-]. by eexists.
  - intros [= _ <-]. exists []. by rewrite app_nil_r.
Qed.

(** FormatRecord calls its hooks in one order: the level formatter, then
    the time formatter, then the source formatter when the source is
    included, then the formatters of the attributes when attributes are
    included; after a call that returned an error it calls nothing. *)
Theorem FormatRecord_hook_order f ctx timestamp level pc msg attrs :
  (FormatRecord f ctx timestamp level pc msg attrs).2 =
    (HookLevel, (levelResult f ctx level).2) ::
    match (levelResult f ctx level).2 with
    | Some _ => []
    | None =>
        (HookTime, (timeResult f ctx level timestamp).2) ::
        match (timeResult f ctx level timestamp).2 with
        | Some _ => []
        | None =>
            if IncludeSource (options f) then
              (HookSource, (sourceResult f ctx level pc).2) ::
              match (sourceResult f ctx level pc).2 with
              | Some _ => []
              | None => attrsPart f ctx level attrs
              end
            else attrsPart f ctx level attrs
        end
    end.
Proof.
  assert ((FormatRecord f ctx timestamp level pc msg attrs).2
          = (formatRecord f ctx timestamp level pc msg attrs).1) as ->.
  { unfold FormatRecord. by destruct (formatRecord _ _ _ _ _ _ _) as [tr [e|m]]. }
  rewrite formatRecord_cases.
  destruct (levelResult f ctx level) as [lv [e|]]; [done|].
  destruct (timeResult f ctx level timestamp) as [tm [e|]]; [done|]. cbn [snd].
  destruct (IncludeSource (options f)).
  - destruct (sourceResult f ctx level pc) as [src [e|]]; [done|]. cbn [snd].
    by rewrite addAttrs_events.
  - by rewrite addAttrs_events.
Qed.

(** The source formatter is not called when the source is not included,
    and no attribute formatter is called when attributes are not
    included. *)
Theorem FormatRecord_hooks_not_called f ctx timestamp level pc msg attrs :
  (IncludeSource (options f) = false →
   ∀ e, (HookSource, e) ∉ (FormatRecord f ctx timestamp level pc msg attrs).2)
  ∧ (IncludeAttrs (options f) = false →
     ∀ h e, (h, e) ∈ (FormatRecord f ctx timestamp level pc msg attrs).2 →
            isAttrHook h = false).
Proof.
  assert ((FormatRecord f ctx timestamp level pc msg attrs).2
          = (formatRecord f ctx timestamp level pc msg attrs).1) as ->.
  { unfold FormatRecord. by destruct (formatRecord _ _ _ _ _ _ _) as [tr [e|m]]. }
  rewrite formatRecord_cases. split.
  - intros -> e Hin.
    destruct (levelResult f ctx level) as [lv [e1|]];
      [by apply list_elem_of_singleton in Hin|].
    destruct (timeResult f ctx level timestamp) as [tm [e2|]].
    { apply elem_of_cons in Hin as [[=]|Hin]. by apply list_elem_of_singleton in Hin. }
    rewrite addAttrs_events in Hin.
    apply elem_of_cons in Hin as [[=]|Hin]. apply elem_of_cons in Hin as [[=]|Hin].
    unfold attrsPart, attrEvents in Hin. destruct (IncludeAttrs (options f));
      [|by apply elem_of_nil in Hin].
    by apply attrBlocks_events in Hin.
  - intros Hno h e Hin.
    assert (attrsPart f ctx level attrs = []) as Hpart
      by (unfold attrsPart; by rewrite Hno).
    destruct (levelResult f ctx level) as [lv [e1|]];
      [by apply list_elem_of_singleton in Hin as [= -> _]|].
    destruct (timeResult f ctx level timestamp) as [tm [e2|]].
    { apply elem_of_cons in Hin as [[= -> _]|Hin]; [done|].
      by apply list_elem_of_singleton in Hin as [= -> _]. }
    destruct (IncludeSource (options f)).
    + destruct (sourceResult f ctx level pc) as [src [e3|]].
      * repeat (apply elem_of_cons in Hin as [[= -> _]|Hin]; [done|]).
        by apply elem_of_nil in Hin.
      * rewrite addAttrs_events, Hpart, app_nil_r in Hin.
        repeat (apply elem_of_cons in Hin as [[= -> _]|Hin]; [done|]).
        by apply elem_of_nil in Hin.
    + rewrite addAttrs_events, Hpart, app_nil_r in Hin.
      repeat (apply elem_of_cons in Hin as [[= -> _]|Hin]; [done|]).
      by apply elem_of_nil in Hin.
Qed.

(** The five leading blocks of a message FormatRecord returns: a divider;
    a context block with the icon and the application name, each when it is
    not empty, and the level text last; a context block with the time
    prefix and the time, followed when the source is included by a new
    line, the source prefix and the source; a divider; a section with the
    message as it was passed, whatever MessageFormatter is. *)
Theorem FormatRecord_head_blocks f ctx timestamp level pc msg attrs m :
  (FormatRecord f ctx timestamp level pc msg attrs).1 = (Some m, None) →
  ∃ lv tm src,
    levelResult f ctx level = (lv, None)
    ∧ timeResult f ctx level timestamp = (tm, None)
    ∧ (if IncludeSource (options f)
       then ∃ s, sourceResult f ctx level pc = (s, None) ∧ src = Some s
       else src = None)
    ∧ take 5 (BlockSet m) =
        [DividerBlock;
         ContextBlock "" (appElements (options f) ++ [TextBlockObject lv]);
         ContextBlock "" [TextBlockObject (timeSourceText (options f) tm src)];
         DividerBlock;
         SectionBlock msg].
Proof.
  unfold FormatRecord.
  destruct (formatRecord f ctx timestamp level pc msg attrs) as [tr [e|m']] eqn:Hrun;
    [done|]. intros [= ->]. rewrite formatRecord_cases in Hrun.
  destruct (levelResult f ctx level) as [lv [e|]]; [done|].
  destruct (timeResult f ctx level timestamp) as [tm [e|]]; [done|].
  destruct (IncludeSource (options f)).
  - destruct (sourceResult f ctx level pc) as [src [e|]]; [done|].
    apply addAttrs_blocks in Hrun as [blocks ->].
    exists lv, tm, (Some src). split; [done|]. split; [done|]. split; [by eexists|done].
  - apply addAttrs_blocks in Hrun as [blocks ->].
    exists lv, tm, None. split; [done|]. split; [done|]. split; done.
Qed.

(** *** The default formatter *)

Lemma DefaultSlackMessageFormatter_eq :
  DefaultSlackMessageFormatter = MkFormatter [] DefaultSlackMessageFormatterOptions.
Proof. reflexivity. Qed.

Lemma attrBlocks_plain f ctx level attrs blockSet :
  ignoredAttrPatterns f = [] → AttrFormatter (options f) = None →
  SpecificAttrFormatter (options f) = ∅ →
  (attrBlocks f ctx level attrs blockSet).1 = []
  ∧ ∀ e, (attrBlocks f ctx level attrs blockSet).2 = inl e →
         ∃ a, a ∈ attrs ∧ marshalFails (Resolve (Val a)) e.
Proof.
  intros Hpat Hgen Hspec. revert blockSet.
  induction attrs as [|attr rest IH]; intros blockSet; [done|].
  rewrite attrBlocks_cons.
  assert (attrToElement f ctx level (Key attr) (Val attr)
          = (text ← valueText (Key attr) (Resolve (Val attr));
             mret (Some (TextBlockObject text)))) as ->.
  { rewrite attrToElement_unfold by (unfold ignored; by rewrite Hpat).
    by rewrite Hspec, lookup_empty, Hgen. }
  unfold mbind, Run_bind, bind.
  pose proof (valueText_cases (Key attr) (Resolve (Val attr))) as Hv.
  destruct (valueText (Key attr) (Resolve (Val attr))) as [tr [e|text]];
    destruct Hv as [-> Hv]; simpl.
  - split; [done|]. intros e' [= <-]. exists attr. split; [apply elem_of_cons; by left|done].
  - destruct (IH []) as [-> Herr]. split; [done|].
    intros e Hfail. destruct (attrBlocks f ctx level rest []) as [tr' [e'|blocks]];
      simpl in *; [|done].
    destruct (Herr e' eq_refl) as (a & Ha & Hm). injection Hfail as <-.
    exists a. split; [apply elem_of_cons; by right|done].
Qed.

(** With the default formatter, which handle uses when no RecordFormatter
    is set, FormatRecord makes two hook calls, the level and the time, and
    neither fails; it returns an error only when the MarshalText of an
    attribute value fails, and then that error. *)
Theorem DefaultSlackMessageFormatter_fails_only_in_MarshalText
    ctx timestamp level pc msg attrs :
  (FormatRecord DefaultSlackMessageFormatter ctx timestamp level pc msg attrs).2
    = [(HookLevel, None); (HookTime, None)]
  ∧ ∀ e,
      (FormatRecord DefaultSlackMessageFormatter ctx timestamp level pc msg attrs).1.2
        = Some e →
      ∃ a, a ∈ slogx_FlattenAttrs (slogx_SortAttrs attrs)
           ∧ marshalFails (Resolve (Val a)) e.
Proof.
  unfold FormatRecord. rewrite formatRecord_cases, DefaultSlackMessageFormatter_eq.
  assert (∀ ctx' level', (formatSlackMessageLevelDefault ctx' level').2 = None) as Hlevel.
  { intros ctx' level'. unfold formatSlackMessageLevelDefault.
    repeat (destruct (decide _); [done|]). done. }
  unfold levelResult, timeResult. cbn [options LevelFormatter TimeFormatter IncludeSource
    DefaultSlackMessageFormatterOptions].
  specialize (Hlevel (AddToContext DefaultSlackMessageFormatterOptions ctx) level).
  destruct (formatSlackMessageLevelDefault _ level) as [lv err]. simpl in Hlevel. subst err.
  unfold addAttrs. cbn [options IncludeAttrs DefaultSlackMessageFormatterOptions].
  match goal with |- context [attrBlocks ?f ?c ?l ?a ?b] =>
    pose proof (attrBlocks_plain f c l a b eq_refl eq_refl eq_refl) as [Htr Herr];
    destruct (attrBlocks f c l a b) as [tr [e|blocks]] eqn:Hloop end;
    simpl in Htr; subst tr; simpl.
  - split; [done|]. intros e' [= <-]. exact (Herr e eq_refl).
  - split; [done|]. done.
Qed.

End WithImports.
End FormatterMore.

(** * Further properties of the handler *)

Module HandlerMore.
Import Slice SliceFacts Handler HandlerFacts.
Section WithImports.
Context `{Imports}.

(** *** NewSlackHandler and Enabled *)

(** With a webhook URL, NewSlackHandler adds one handler to the store and
    changes nothing else. The handler has no active group and shows no
    attribute, group or future; its HTTP client is the one given or the
    default one, its level the one given or slog.LevelInfo, and the other
    options are as given. Enabled on it never meets a nil level: it holds
    exactly for the levels from that level on. *)
Theorem NewSlackHandler_fresh opts st :
  WebhookURL opts ≠ "" →
  ∃ h,
    NewSlackHandler opts st
      = ((Some (length (handlers st)), None), set_handlers (handlers st ++ [h]) st)
    ∧ activeGroup h = ""
    ∧ attrsOf (NewSlackHandler opts st).2 h = []
    ∧ groupsOf (NewSlackHandler opts st).2 h = []
    ∧ futuresOf (NewSlackHandler opts st).2 h = []
    ∧ HTTPClient_ (options h) = Some (default http_DefaultClient (HTTPClient_ opts))
    ∧ Level_ (options h) = Some (default slog_LevelInfo (Level_ opts))
    ∧ EnableAsync (options h) = EnableAsync opts
    ∧ RecordFormatter (options h) = RecordFormatter opts
    ∧ WebhookURL (options h) = WebhookURL opts
    ∧ ∀ level,
        Enabled h level
        = Some (bool_decide (default slog_LevelInfo (Level_ opts) ≤ level)%Z).
Proof.
  intros Hurl. unfold NewSlackHandler. rewrite decide_False by done. simpl.
  eexists. split; [reflexivity|]. simpl.
  repeat split; try done; by destruct opts as [a [c|] [l|] rf url].
Qed.

(** A handler derived by WithAttrs or WithGroup has the options of the
    receiver, so it is enabled for the same levels, and it shows the
    futures the receiver shows. *)
Theorem derived_handler_inherits st h attrs_ name :
  (∃ h', handlers (WithAttrs h attrs_ st).2 !! (WithAttrs h attrs_ st).1 = Some h'
         ∧ options h' = options h
         ∧ futuresOf (WithAttrs h attrs_ st).2 h' = futuresOf st h
         ∧ ∀ level, Enabled h' level = Enabled h level)
  ∧ (∃ h', handlers (WithGroup h name st).2 !! (WithGroup h name st).1 = Some h'
           ∧ options h' = options h
           ∧ futuresOf (WithGroup h name st).2 h' = futuresOf st h
           ∧ ∀ level, Enabled h' level = Enabled h level).
Proof.
  split.
  - rewrite WithAttrs_unfold. cbv zeta. eexists. split; [apply lookup_new|]. done.
  - destruct (decide (name = "")) as [->|Hne].
    + unfold WithGroup. simpl. eexists. split; [apply lookup_new|]. done.
    + rewrite WithGroup_unfold by done. cbv zeta.
      eexists. split; [apply lookup_new|]. done.
Qed.

(** *** WithAttrs and WithGroup *)

(** WithAttrs on a handler without active group appends the attributes as
    they are; the new handler has no active group either and shows the
    groups of the receiver. *)
Theorem WithAttrs_ungrouped st hp h attrs_ :
  store_wf st → handlers st !! hp = Some h → activeGroup h = "" →
  ∃ hp2 st2 h2,
    WithAttrs h attrs_ st = (hp2, st2) ∧ handlers st2 !! hp2 = Some h2
    ∧ activeGroup h2 = ""
    ∧ attrsOf st2 h2 = attrsOf st h ++ attrs_
    ∧ groupsOf st2 h2 = groupsOf st h.
Proof.
  intros Hwf Hh Hact. rewrite WithAttrs_unfold. cbv zeta. rewrite decide_True by done.
  eexists _, _, _. split; [reflexivity|]. split; [apply lookup_new|]. split; [done|].
  split; [|done]. unfold attrsOf. simpl. apply elems_append. by eapply wf_attrs.
Qed.

(** WithGroup with a name adds the name after the open groups and makes it
    the active group; the attributes shown are those of the receiver. *)
Theorem WithGroup_pushes st hp h name :
  store_wf st → handlers st !! hp = Some h → name ≠ "" →
  ∃ hp1 st1 h1,
    WithGroup h name st = (hp1, st1) ∧ handlers st1 !! hp1 = Some h1
    ∧ activeGroup h1 = name
    ∧ groupsOf st1 h1 = groupsOf st h ++ [name]
    ∧ attrsOf st1 h1 = attrsOf st h.
Proof.
  intros Hwf Hh Hne.
  destruct (WithGroup_named st hp h name Hwf Hh Hne)
    as (hp1 & st1 & h1 & Hg & Hh1 & _ & Hact & Ha & Hgr).
  by exists hp1, st1, h1.
Qed.

(** WithGroup with the empty name opens no group, and the handler it
    returns has no active group, whatever the active group of the receiver
    is: attributes attached to it afterwards are appended as they are. *)
Theorem WithGroup_empty_resets st hp h attrs_ :
  store_wf st → handlers st !! hp = Some h →
  ∃ hp1 st1 h1 hp2 st2 h2,
    WithGroup h "" st = (hp1, st1) ∧ handlers st1 !! hp1 = Some h1
    ∧ activeGroup h1 = ""
    ∧ groupsOf st1 h1 = groupsOf st h
    ∧ WithAttrs h1 attrs_ st1 = (hp2, st2) ∧ handlers st2 !! hp2 = Some h2
    ∧ attrsOf st2 h2 = attrsOf st h ++ attrs_.
Proof.
  intros Hwf Hh.
  destruct (WithGroup_unnamed st hp h Hwf Hh) as (hp1 & st1 & h1 & Hg & Hh1 & Hwf1 & Hact & Ha).
  assert (groupsOf st1 h1 = groupsOf st h) as Hgr.
  { unfold WithGroup, new in Hg. simpl in Hg. injection Hg as <- <-. simpl in Hh1.
    rewrite lookup_app_r, Nat.sub_diag in Hh1 by lia. by injection Hh1 as <-. }
  assert (∃ hp2 st2 h2, WithAttrs h1 attrs_ st1 = (hp2, st2)
            ∧ handlers st2 !! hp2 = Some h2 ∧ attrsOf st2 h2 = attrsOf st1 h1 ++ attrs_)
    as (hp2 & st2 & h2 & Hw & Hh2 & Ha2).
  { rewrite WithAttrs_unfold. cbv zeta. rewrite decide_True by done.
    eexists _, _, _. split; [reflexivity|]. split; [apply lookup_new|].
    unfold attrsOf. simpl. apply elems_append. by eapply wf_attrs. }
  exists hp1, st1, h1, hp2, st2, h2. rewrite Ha2, Ha. done.
Qed.

(** *** Handle *)

(** An asynchronous Handle touches the futures of its handler, the future
    arrays and the tasks only: the attribute and group arrays are as
    before, every handler keeps its active group, its attributes, its
    groups and its options, every other handler is unchanged, and the
    tasks there were are as they were. *)
Theorem Handle_async_frame st hp h ctx r res st' :
  handlers st !! hp = Some h → EnableAsync (options h) = true →
  Handle hp ctx r st = Some (res, st') →
  attrArrays st' = attrArrays st
  ∧ groupArrays st' = groupArrays st
  ∧ (∀ hp' h', handlers st !! hp' = Some h' →
       ∃ h'', handlers st' !! hp' = Some h''
              ∧ activeGroup h'' = activeGroup h' ∧ attrs h'' = attrs h'
              ∧ groups h'' = groups h' ∧ options h'' = options h'
              ∧ (hp' ≠ hp → h'' = h'))
  ∧ (∀ id t, tasks st !! id = Some t → tasks st' !! id = Some t).
Proof.
  intros Hh Hasync. unfold Handle. rewrite Hh. simpl. rewrite Hasync. simpl.
  destruct (append _ _ _ _) as [m s]. intros [= _ <-]. simpl.
  split; [done|]. split; [done|]. split.
  - intros hp' h' Hh'. destruct (decide (hp' = hp)) as [->|Hne].
    + rewrite list_lookup_insert_eq by (by eapply lookup_lt_Some).
      eexists. split; [reflexivity|]. rewrite Hh in Hh'. injection Hh' as <-. done.
    + rewrite list_lookup_insert_ne by done. by exists h'.
  - intros id t Hid. by apply lookup_app_l_Some.
Qed.

(** *** Shutdown *)

Lemma runTask_frame st id :
  handlers (runTask id st) = handlers st
  ∧ attrArrays (runTask id st) = attrArrays st
  ∧ groupArrays (runTask id st) = groupArrays st
  ∧ futureArrays (runTask id st) = futureArrays st
  ∧ ∀ id', id' ≠ id → tasks (runTask id st) !! id' = tasks st !! id'.
Proof.
  unfold runTask. destruct (tasks st !! id) as [[hp ctx r|res]|]; try done.
  destruct (handlers st !! hp) as [h|]; [|done]. simpl.
  repeat split. intros id' Hne. by rewrite list_lookup_insert_ne.
Qed.

Lemma awaitAll_frame fs st :
  handlers (awaitAll fs st) = handlers st
  ∧ attrArrays (awaitAll fs st) = attrArrays st
  ∧ groupArrays (awaitAll fs st) = groupArrays st
  ∧ futureArrays (awaitAll fs st) = futureArrays st
  ∧ length (tasks (awaitAll fs st)) = length (tasks st)
  ∧ ∀ id, Some id ∉ fs → tasks (awaitAll fs st) !! id = tasks st !! id.
Proof.
  revert st. induction fs as [|[f|] fs IH]; intros st; simpl.
  - done.
  - destruct (IH (Await f st)) as (Hh & Ha & Hg & Hf & Hl & Ht).
    destruct (runTask_frame st f) as (Hh' & Ha' & Hg' & Hf' & Ht'). unfold Await in *.
    rewrite Hh, Ha, Hg, Hf, Hl, length_tasks_runTask. repeat split; try done.
    intros id Hid. apply not_elem_of_cons in Hid as [Hne Hid].
    rewrite Ht by done. apply Ht'. congruence.
  - destruct (IH st) as (Hh & Ha & Hg & Hf & Hl & Ht). repeat split; try done.
    intros id Hid. apply not_elem_of_cons in Hid as [_ Hid]. by apply Ht.
Qed.

(** Shutdown changes tasks only, and only those the handler holds a
    future of: the handlers and the arrays are as before, a task that no
    future of the handler names is as it was, and a task that had finished
    keeps its result. *)
Theorem Shutdown_frame h continueOnError st :
  handlers (Shutdown h continueOnError st).2 = handlers st
  ∧ attrArrays (Shutdown h continueOnError st).2 = attrArrays st
  ∧ groupArrays (Shutdown h continueOnError st).2 = groupArrays st
  ∧ futureArrays (Shutdown h continueOnError st).2 = futureArrays st
  ∧ length (tasks (Shutdown h continueOnError st).2) = length (tasks st)
  ∧ (∀ id, Some id ∉ futuresOf st h →
           tasks (Shutdown h continueOnError st).2 !! id = tasks st !! id)
  ∧ (∀ id result, tasks st !! id = Some (Finished result) →
           tasks (Shutdown h continueOnError st).2 !! id = Some (Finished result)).
Proof.
  unfold Shutdown. simpl.
  destruct (awaitAll_frame (futuresOf st h) st) as (Hh & Ha & Hg & Hf & Hl & Ht).
  repeat split; try done. intros id result. apply awaitAll_keeps_finished.
Qed.

Lemma awaitAll_done fs st :
  (∀ f, Some f ∈ fs → ∃ result, tasks st !! f = Some (Finished result)) →
  awaitAll fs st = st.
Proof.
  induction fs as [|[f|] fs IH]; intros Hfin; simpl.
  - done.
  - assert (Await f st = st) as ->.
    { unfold Await, runTask. destruct (Hfin f) as [result ->]; [|done].
      apply elem_of_cons. by left. }
    apply IH. intros f' Hf'. apply Hfin. apply elem_of_cons. by right.
  - apply IH. intros f' Hf'. apply Hfin. apply elem_of_cons. by right.
Qed.

(** A second Shutdown of the same handler finds every task finished and
    changes nothing. *)
Theorem Shutdown_twice st hp h c1 c2 :
  store_wf st → handlers st !! hp = Some h →
  Shutdown h c2 (Shutdown h c1 st).2 = (None, (Shutdown h c1 st).2).
Proof.
  intros Hwf Hh. unfold Shutdown. simpl. f_equal.
  assert (futuresOf (awaitAll (futuresOf st h) st) h = futuresOf st h) as ->.
  { unfold futuresOf. by rewrite (proj1 (proj2 (proj2 (proj2 (awaitAll_frame _ st))))). }
  apply awaitAll_done. intros f Hf.
  apply awaitAll_finishes; [done| |done]. by eapply futuresOf_ok.
Qed.




End WithImports.
End HandlerMore.

(** * The further properties on the sample runs *)

Module MoreExamples.
Import Slice SliceFacts Formatter FormatterParts FormatterFacts FormatterMore.
Import Handler HandlerFacts HandlerMore Sample Scenario Scenario2 Examples.

Lemma formatter_gets_split_key_witness :
  ignored aFormatter "g.b" = false
  ∧ ∃ group leaf, "g.b" = group +:+ "." +:+ leaf ∧ LastIndexDot leaf = None.
Proof.
  split; [reflexivity|].
  destruct (formatter_gets_split_key aFormatter tt 0 "g.b" (BoolValue true) eq_refl)
    as (group & leaf & Hleaf & [(Hno & _)|Hkey] & _).
  - discriminate Hno.
  - by exists group, leaf.
Defined.

Lemma attrBlocks_first_error_witness :
  Forall (λ x, ∃ el, (attrToElement pickyFormatter tt 0 (Key x) (Val x)).2 = inr el)
    [MkAttr "a" (BoolValue true)]
  ∧ (attrToElement pickyFormatter tt 0 "g.b" (BoolValue true)).2 = inl "no b"
  ∧ (attrBlocks pickyFormatter tt 0
       ([MkAttr "a" (BoolValue true)] ++ MkAttr "g.b" (BoolValue true)
          :: [MkAttr "z" (BoolValue false)]) []).2 = inl "no b".
Proof.
  assert (Forall (λ x, ∃ el, (attrToElement pickyFormatter tt 0 (Key x) (Val x)).2 = inr el)
            [MkAttr "a" (BoolValue true)]) as Hpre.
  { constructor; [|constructor]. eexists. vm_compute. reflexivity. }
  split; [exact Hpre|]. split; [reflexivity|].
  exact (proj1 (attrBlocks_first_error pickyFormatter tt 0 [MkAttr "a" (BoolValue true)]
                  (MkAttr "g.b" (BoolValue true)) [MkAttr "z" (BoolValue false)] []
                  "no b" Hpre eq_refl)).
Defined.

Lemma FormatRecord_head_blocks_witness :
  ∃ m, (FormatRecord aFormatter tt 0 0 0 "hello" someAttrs).1 = (Some m, None)
       ∧ ∃ lv tm src,
           take 5 (BlockSet m)
           = headBlocks (Formatter.options aFormatter) lv tm src "hello".
Proof.
  eexists. split.
  - vm_compute. reflexivity.
  - destruct (FormatRecord_head_blocks aFormatter tt 0 0 0 "hello" someAttrs _
                ltac:(vm_compute; reflexivity))
      as (lv & tm & src & _ & _ & _ & Hhead).
    exists lv, tm, src. exact Hhead.
Defined.

Lemma NewSlackHandler_fresh_witness :
  WebhookURL syncOptions ≠ ""
  ∧ ∃ h, NewSlackHandler syncOptions emptyStore
         = ((Some 0%nat, None), set_handlers [h] emptyStore)
       ∧ Enabled h 0 = Some true.
Proof.
  assert (WebhookURL syncOptions ≠ "") as Hurl by discriminate.
  split; [exact Hurl|].
  destruct (NewSlackHandler_fresh syncOptions emptyStore Hurl)
    as (h & Hnew & _ & _ & _ & _ & _ & _ & _ & _ & _ & Hen).
  exists h. split; [exact Hnew|]. rewrite Hen. reflexivity.
Defined.

Lemma store_wf_grouped : store_wf grouped.
Proof.
  exact (store_wf_WithGroup (started syncOptions) 0%nat _ "g"
           (store_wf_started syncOptions) eq_refl).
Qed.

Lemma WithAttrs_ungrouped_witness :
  store_wf (started syncOptions)
  ∧ ∃ h, handlers (started syncOptions) !! 0%nat = Some h ∧ activeGroup h = ""
  ∧ ∃ hp2 st2 h2,
      WithAttrs h [attr "a"; attr "b"] (started syncOptions) = (hp2, st2)
      ∧ handlers st2 !! hp2 = Some h2
      ∧ attrsOf st2 h2 = attrsOf (started syncOptions) h ++ [attr "a"; attr "b"].
Proof.
  split; [apply store_wf_started|]. eexists. split; [reflexivity|]. split; [reflexivity|].
  destruct (WithAttrs_ungrouped (started syncOptions) 0%nat _ [attr "a"; attr "b"]
              (store_wf_started syncOptions) eq_refl eq_refl)
    as (hp2 & st2 & h2 & Hw & Hh2 & _ & Ha & _).
  by exists hp2, st2, h2.
Defined.

Lemma WithGroup_pushes_witness :
  store_wf grouped
  ∧ ∃ h, handlers grouped !! 1%nat = Some h
  ∧ ∃ hp1 st1 h1,
      WithGroup h "nested" grouped = (hp1, st1) ∧ handlers st1 !! hp1 = Some h1
      ∧ activeGroup h1 = "nested"
      ∧ groupsOf st1 h1 = ["g"; "nested"].
Proof.
  split; [apply store_wf_grouped|]. eexists. split; [reflexivity|].
  destruct (WithGroup_pushes grouped 1%nat _ "nested" store_wf_grouped eq_refl
              ltac:(discriminate))
    as (hp1 & st1 & h1 & Hg & Hh1 & Hact & Hgr & _).
  by exists hp1, st1, h1.
Defined.

Lemma WithGroup_empty_resets_witness :
  store_wf grouped
  ∧ ∃ h, handlers grouped !! 1%nat = Some h ∧ activeGroup h = "g"
  ∧ ∃ hp1 st1 h1 hp2 st2 h2,
      WithGroup h "" grouped = (hp1, st1) ∧ handlers st1 !! hp1 = Some h1
      ∧ activeGroup h1 = ""
      ∧ WithAttrs h1 [attr "a"] st1 = (hp2, st2) ∧ handlers st2 !! hp2 = Some h2
      ∧ attrsOf st2 h2 = [attr "a"].
Proof.
  split; [apply store_wf_grouped|]. eexists. split; [reflexivity|]. split; [reflexivity|].
  destruct (WithGroup_empty_resets grouped 1%nat _ [attr "a"] store_wf_grouped eq_refl)
    as (hp1 & st1 & h1 & hp2 & st2 & h2 & Hg & Hh1 & Hact & _ & Hw & Hh2 & Ha).
  by exists hp1, st1, h1, hp2, st2, h2.
Defined.

Lemma Handle_async_frame_witness :
  ∃ h st',
    handlers (started asyncOptions) !! 0%nat = Some h
    ∧ EnableAsync (Handler.options h) = true
    ∧ Handle 0 tt aRecord (started asyncOptions) = Some (None, st')
    ∧ attrArrays st' = attrArrays (started asyncOptions)
    ∧ groupArrays st' = groupArrays (started asyncOptions).
Proof.
  eexists _, _. split; [reflexivity|]. split; [reflexivity|].
  split; [reflexivity|].
  destruct (Handle_async_frame (started asyncOptions) 0%nat _ tt aRecord None _
              eq_refl eq_refl eq_refl)
    as (Ha & Hg & _ & _).
  split; [exact Ha|exact Hg].
Defined.

Lemma Shutdown_twice_witness :
  store_wf (afterThreeHandles asyncOptions)
  ∧ ∃ h, handlers (afterThreeHandles asyncOptions) !! 0%nat = Some h
  ∧ Shutdown h false (Shutdown h true (afterThreeHandles asyncOptions)).2
    = (None, (Shutdown h true (afterThreeHandles asyncOptions)).2).
Proof.
  assert (store_wf (afterThreeHandles asyncOptions)) as Hwf
    by (do 3 apply store_wf_handled; apply store_wf_started).
  split; [exact Hwf|]. eexists. split; [reflexivity|].
  exact (Shutdown_twice (afterThreeHandles asyncOptions) 0%nat _ true false Hwf eq_refl).
Defined.


(** The default formatter on the sample attributes makes its two calls. *)
Example default_formatter_calls :
  (FormatRecord DefaultSlackMessageFormatter tt 0 0 0 "hello" someAttrs).2
    = [(HookLevel, None); (HookTime, None)].
Proof. vm_compute. reflexivity. Qed.

End MoreExamples.
